(** * ENSO_metrics: a shallow embedding of the metric library and the
    portrait-plot driver.

    Sources: lib/EnsoMetricsLib.py (the metric functions) and
    plots/driver_portraitplot.py (the driver that reads the metric JSON).
    Numerical kernels of the external toolkit (NetCDF reading, regridding,
    RMS, standard deviation) are not modelled; the control flow around them
    (keyword defaults, the minimum-length checks, the regridding guard, the
    event detection and compositing contracts, the result record, the
    reference fallback and the JSON lookup) is. *)

From Stdlib Require Import QArith Lqa ZArith Lia Ascii String.
From stdpp Require Import base gmap strings list.

Set Warnings "-register-all".
Open Scope string_scope.
Open Scope list_scope.

(* ------------------------------------------------------------------ *)
(** ** Python values carried in [**kwargs] *)

Inductive pyval :=
  | VNone
  | VBool (b : bool)
  | VInt (z : Z)
  | VStr (s : string)
  | VDict (kvs : list (string * pyval))   (** a dict, in insertion order *)
  | VTuple (xs : list pyval).

(** [isinstance(v, int)]: Python's [bool] is a subclass of [int]. *)
Definition py_int (v : pyval) : option Z :=
  match v with
  | VInt z => Some z
  | VBool b => Some (Z.b2z b)
  | _ => None
  end.

(** The keyword arguments of a call: a Python dict. *)
Abbreviation kwargs := (gmap string pyval).

(** Modelled from the spec: [KeyArgLib.DefaultArgValues] (the module is not
    part of the sources).  The defaults are the ones the docstrings of the
    metric functions document: [detrending], [normalization],
    [regridding] and [smoothing] default to [False], [frequency],
    [min_time_steps] and the time bounds to [None]. *)
Definition DefaultArgValues (arg : string) : pyval :=
  match arg with
  | "detrending" | "normalization" | "regridding" | "smoothing" => VBool false
  | _ => VNone
  end.

(** [for arg in needed_kwarg: try: kwargs[arg] except: kwargs[arg] = DefaultArgValues(arg)] *)
Definition fill_defaults (needed : list string) (kw : kwargs) : kwargs :=
  fold_left (fun kw arg =>
               match kw !! arg with
               | Some _ => kw
               | None => <[arg := DefaultArgValues arg]> kw
               end) needed kw.

(* ------------------------------------------------------------------ *)
(** ** The metric functions *)

Inductive metric :=
  | BiasSstRmse | BiasSstLatRmse | BiasSstLonRmse
  | BiasPrRmse | BiasPrLatRmse | BiasPrLonRmse
  | BiasTauxRmse | BiasTauxLatRmse | BiasTauxLonRmse
  | EnsoAlphaLhf | EnsoAlphaLwr | EnsoAlphaShf | EnsoAlphaSwr | EnsoAlphaThf
  | EnsoAmpl | EnsoMu | EnsoPrJjaTel | EnsoSeasonality
  | NinaSstLonRmse | NinoSstLonRmse | NinaSstTsRmse | NinoSstTsRmse
  | SeasonalPrLatRmse | SeasonalPrLonRmse | SeasonalSstLatRmse | SeasonalSstLonRmse.

Definition all_metrics : list metric :=
  [BiasSstRmse; BiasSstLatRmse; BiasSstLonRmse; BiasPrRmse; BiasPrLatRmse;
   BiasPrLonRmse; BiasTauxRmse; BiasTauxLatRmse; BiasTauxLonRmse;
   EnsoAlphaLhf; EnsoAlphaLwr; EnsoAlphaShf; EnsoAlphaSwr; EnsoAlphaThf;
   EnsoAmpl; EnsoMu; EnsoPrJjaTel; EnsoSeasonality; NinaSstLonRmse;
   NinoSstLonRmse; NinaSstTsRmse; NinoSstTsRmse; SeasonalPrLatRmse;
   SeasonalPrLonRmse; SeasonalSstLatRmse; SeasonalSstLonRmse].

(** The function name, as it appears in the error messages. *)
Definition metric_name (m : metric) : string :=
  match m with
  | BiasSstRmse => "BiasSstRmse" | BiasSstLatRmse => "BiasSstLatRmse"
  | BiasSstLonRmse => "BiasSstLonRmse" | BiasPrRmse => "BiasPrRmse"
  | BiasPrLatRmse => "BiasPrLatRmse" | BiasPrLonRmse => "BiasPrLonRmse"
  | BiasTauxRmse => "BiasTauxRmse" | BiasTauxLatRmse => "BiasTauxLatRmse"
  | BiasTauxLonRmse => "BiasTauxLonRmse" | EnsoAlphaLhf => "EnsoAlphaLhf"
  | EnsoAlphaLwr => "EnsoAlphaLwr" | EnsoAlphaShf => "EnsoAlphaShf"
  | EnsoAlphaSwr => "EnsoAlphaSwr" | EnsoAlphaThf => "EnsoAlphaThf"
  | EnsoAmpl => "EnsoAmpl" | EnsoMu => "EnsoMu"
  | EnsoPrJjaTel => "EnsoPrJjaTel" | EnsoSeasonality => "EnsoSeasonality"
  | NinaSstLonRmse => "NinaSstLonRmse" | NinoSstLonRmse => "NinoSstLonRmse"
  | NinaSstTsRmse => "NinaSstTsRmse" | NinoSstTsRmse => "NinoSstTsRmse"
  | SeasonalPrLatRmse => "SeasonalPrLatRmse" | SeasonalPrLonRmse => "SeasonalPrLonRmse"
  | SeasonalSstLatRmse => "SeasonalSstLatRmse" | SeasonalSstLonRmse => "SeasonalSstLonRmse"
  end.

(** The [needed_kwarg] list at the top of each function. *)
Definition needed_kwarg (m : metric) : list string :=
  match m with
  | BiasSstRmse | BiasSstLatRmse | BiasSstLonRmse | BiasPrRmse | BiasPrLatRmse
  | BiasPrLonRmse | BiasTauxRmse | BiasTauxLatRmse | BiasTauxLonRmse
  | SeasonalPrLatRmse | SeasonalPrLonRmse | SeasonalSstLatRmse | SeasonalSstLonRmse =>
      ["detrending"; "frequency"; "min_time_steps"; "normalization"; "regridding";
       "smoothing"; "time_bounds_model"; "time_bounds_obs"]
  | EnsoAlphaLhf | EnsoAlphaLwr | EnsoAlphaShf | EnsoAlphaSwr | EnsoAlphaThf
  | EnsoAmpl | EnsoMu | EnsoSeasonality =>
      ["detrending"; "frequency"; "min_time_steps"; "normalization"; "smoothing";
       "time_bounds"]
  | EnsoPrJjaTel | NinaSstLonRmse | NinoSstLonRmse | NinaSstTsRmse | NinoSstTsRmse =>
      ["detrending"; "frequency"; "min_time_steps"; "normalization"; "smoothing";
       "time_bounds_model"; "time_bounds_obs"]
  end.

(** How the minimum-length criterion is checked. *)
Inductive length_check :=
  | PairCheck      (** model series then observed series, inline [MyError] *)
  | SingleCheck    (** one series, [TooShortTimePeriod] *)
  | CheckTimePair. (** two variables of one dataset, delegated to [CheckTime] *)

Definition length_check_of (m : metric) : length_check :=
  match m with
  | EnsoAmpl | EnsoSeasonality => SingleCheck
  | EnsoAlphaLhf | EnsoAlphaLwr | EnsoAlphaShf | EnsoAlphaSwr | EnsoAlphaThf
  | EnsoMu => CheckTimePair
  | _ => PairCheck
  end.

(** Does the function contain the [if isinstance(kwargs['regridding'], dict)] block? *)
Definition has_regrid_step (m : metric) : bool :=
  match m with
  | BiasSstRmse | BiasSstLatRmse | BiasSstLonRmse | BiasPrRmse | BiasPrLatRmse
  | BiasPrLonRmse | BiasTauxRmse | BiasTauxLatRmse | BiasTauxLonRmse
  | SeasonalPrLatRmse | SeasonalPrLonRmse | SeasonalSstLatRmse | SeasonalSstLonRmse
  | NinaSstLonRmse | NinoSstLonRmse => true
  | _ => false
  end.

(* ------------------------------------------------------------------ *)
(** ** Errors and the error monad *)

Inductive err :=
  | ETooShort (fn which : string) (len mini : Z)
      (** "too short time-period": function, which series, length, minimum *)
  | EUnknownKeyArg (extra : gset string)
      (** [EnsoErrorsWarnings.UnknownKeyArg(extra_args, ...)] *)
  | EKeyError (key : string)
      (** an uncaught Python [KeyError] *)
  | EUnboundLocalError (name : string).
      (** an uncaught Python [UnboundLocalError]: a local read before any assignment *)

Inductive res (A : Type) := Ok (a : A) | Err (e : err).
Arguments Ok {A} a.
Arguments Err {A} e.

Global Instance res_ret : MRet res := fun _ a => Ok a.
Global Instance res_bind : MBind res :=
  fun _ _ f r => match r with Ok a => f a | Err e => Err e end.

(** Python dict lookup [kwargs[k]]. *)
Definition kw_get (kw : kwargs) (k : string) : res pyval :=
  match kw !! k with Some v => Ok v | None => Err (EKeyError k) end.

(* ------------------------------------------------------------------ *)
(** ** The minimum-length criterion *)

(** Lengths of the series a metric reads, after landmasking: the modeled
    and observed series of a model-vs-observations metric, the single SST
    series of [EnsoAmpl]/[EnsoSeasonality] ([len_b] unused), or the SST and
    the second variable of a feedback metric. *)
Record series_lengths := { len_a : Z; len_b : Z }.

(** Modelled from the spec: [EnsoUvcdatToolsLib.CheckTime] (not part of the
    sources).  Its length part: when [min_time_steps] is an integer, a series
    shorter than it raises a "too-short time period" error naming the metric
    ([metric_name=...]), the length and the minimum. *)
Definition CheckTime (fn : string) (kw : kwargs) (ls : series_lengths) : res unit :=
  mts ← kw_get kw "min_time_steps";
  match py_int mts with
  | Some mini =>
      if Z.ltb (len_a ls) mini then Err (ETooShort fn "" (len_a ls) mini)
      else if Z.ltb (len_b ls) mini then Err (ETooShort fn "" (len_b ls) mini)
      else mret tt
  | None => mret tt
  end.

(** [# checks if the time-period fulfills the minimum length criterion] *)
Definition check_min_length (m : metric) (kw : kwargs) (ls : series_lengths) : res unit :=
  match length_check_of m with
  | PairCheck =>
      mts ← kw_get kw "min_time_steps";
      match py_int mts with
      | Some mini =>
          if Z.ltb (len_a ls) mini then Err (ETooShort (metric_name m) "modeled" (len_a ls) mini)
          else if Z.ltb (len_b ls) mini then Err (ETooShort (metric_name m) "observed" (len_b ls) mini)
          else mret tt
      | None => mret tt
      end
  | SingleCheck =>
      (* EnsoErrorsWarnings.TooShortTimePeriod(name, len(sst), mini, ...) *)
      mts ← kw_get kw "min_time_steps";
      match py_int mts with
      | Some mini =>
          if Z.ltb (len_a ls) mini then Err (ETooShort (metric_name m) "" (len_a ls) mini)
          else mret tt
      | None => mret tt
      end
  | CheckTimePair => CheckTime (metric_name m) kw ls
  end.

(* ------------------------------------------------------------------ *)
(** ** The regridding guard *)

Definition known_args : gset string :=
  list_to_set ["model_orand_obs"; "newgrid"; "missing"; "order"; "mask";
               "newgrid_name"; "regridder"; "regridTool"; "regridMethod"].

(** [if isinstance(kwargs['regridding'], dict): extra_args = set(kwargs['regridding']) - known_args; ...]
    The result says whether [TwoVarRegrid] was called. *)
Definition regrid_step (kw : kwargs) : res bool :=
  rg ← kw_get kw "regridding";
  match rg with
  | VDict kvs =>
      let extra_args := list_to_set (map fst kvs) ∖ known_args in
      if decide (extra_args = ∅) then mret true
      else Err (EUnknownKeyArg extra_args)
  | _ => mret false
  end.

(* ------------------------------------------------------------------ *)
(** ** The result record *)

(** Keys of the output dict each function builds, in source order. *)
Definition record_keys (m : metric) : list string :=
  match m with
  | BiasSstRmse | BiasSstLatRmse | BiasSstLonRmse | BiasPrRmse | BiasPrLatRmse
  | BiasPrLonRmse | BiasTauxRmse | BiasTauxLatRmse | BiasTauxLonRmse
  | SeasonalPrLatRmse | SeasonalPrLonRmse | SeasonalSstLatRmse | SeasonalSstLonRmse =>
      ["name"; "value"; "value_error"; "units"; "method"; "nyears_model";
       "nyears_observations"; "time_frequency"; "time_period_model";
       "time_period_observations"; "ref"; "dive_down_diag"]
  | EnsoAlphaLhf | EnsoAlphaLwr | EnsoAlphaShf | EnsoAlphaSwr | EnsoAlphaThf | EnsoMu =>
      ["name"; "value"; "value_error"; "units"; "method"; "method_nonlinearity";
       "nyears"; "time_frequency"; "time_period"; "ref"; "nonlinearity";
       "nonlinearity_error"]
  | EnsoAmpl | EnsoSeasonality =>
      ["name"; "value"; "value_error"; "units"; "method"; "nyears";
       "time_frequency"; "time_period"; "ref"]
  | EnsoPrJjaTel =>
      ["name"; "value"; "value_error"; "units"; "method"; "value2"; "value_error2";
       "units2"; "nyears_model"; "nyears_observations"; "nina_model"; "nino_model";
       "nina_observations"; "nino_observations"; "time_frequency";
       "time_period_model"; "time_period_observations"; "ref"; "dive_down_diag"]
  | NinaSstLonRmse | NinoSstLonRmse | NinaSstTsRmse | NinoSstTsRmse =>
      ["name"; "value"; "value_error"; "units"; "method"; "nyears_model";
       "nyears_observations"; "events_model"; "events_observations";
       "time_frequency"; "time_period_model"; "time_period_observations"; "ref";
       "dive_down_diag"]
  end.

Record outcome := { out_keys : list string; out_regridded : bool }.

(** [debug is True]: only the [True] object itself. *)
Definition py_is_True (v : pyval) : bool :=
  match v with VBool true => true | _ => false end.

(** [BiasPrRmse] reads its areacells and landmasks inside the block
    [if debug is True:] (lines 906-959), while the other functions read
    them unconditionally; for any other [debug] the later
    [PreProcessTS(pr_model, ..., areacell=model_areacell, ...)] (line 985)
    reads an unbound local. *)
Definition areacell_under_debug (m : metric) : bool :=
  match m with BiasPrRmse => true | _ => false end.

(** The control skeleton shared by the metric functions, [debug] being the
    keyword parameter [debug=False]: defaults, the minimum-length check,
    the [PreProcessTS] calls (which need the areacells), the regridding
    guard (where the function has one), then the result record. *)
Definition run_metric (m : metric) (debug : pyval) (kw0 : kwargs) (ls : series_lengths) : res outcome :=
  let kw := fill_defaults (needed_kwarg m) kw0 in
  _ ← check_min_length m kw ls;
  _ ← (if areacell_under_debug m && negb (py_is_True debug)
       then Err (EUnboundLocalError "model_areacell") else mret tt);
  regridded ← (if has_regrid_step m then regrid_step kw else mret false);
  mret {| out_keys := record_keys m; out_regridded := regridded |}.

(* ------------------------------------------------------------------ *)
(** ** EnsoPrJjaTel: the keyword dict across the two phases *)

(** Which series a [PreProcessTS(..., **kwargs)] call transforms. *)
Inductive pp_target := SstModel | SstObs | PrModel (reg : string) | PrObs (reg : string).

(** A [PreProcessTS] call and the [smoothing] entry of the kwargs it received. *)
Record pp_call := { pp_on : pp_target; pp_smoothing : option pyval }.

Record pr_state := { st_kw : kwargs; st_trace : list pp_call }.

(** A state monad over the function's local [kwargs] and the calls made so far. *)
Definition ST (A : Type) : Type := pr_state -> A * pr_state.

Global Instance ST_ret : MRet ST := fun _ a s => (a, s).
Global Instance ST_bind : MBind ST := fun _ _ f c s => let '(a, s') := c s in f a s'.

Definition get_kw : ST kwargs := fun s => (st_kw s, s).
Definition put_kw (kw : kwargs) : ST unit :=
  fun s => (tt, {| st_kw := kw; st_trace := st_trace s |}).

(** [PreProcessTS(x, ..., **kwargs)]: the toolkit call itself is external;
    what matters here is the smoothing option it is handed. *)
Definition PreProcessTS (t : pp_target) : ST unit :=
  fun s => (tt, {| st_kw := st_kw s;
                   st_trace := {| pp_on := t; pp_smoothing := st_kw s !! "smoothing" |}
                               :: st_trace s |}).

(** The body of the [for reg in prbox] loop, as far as kwargs go. *)
Definition pr_region (reg : string) : ST unit :=
  _ ← PreProcessTS (PrModel reg); PreProcessTS (PrObs reg).

Fixpoint pr_regions (regs : list string) : ST unit :=
  match regs with
  | [] => mret tt
  | reg :: regs' => _ ← pr_region reg; pr_regions regs'
  end.

(** [EnsoPrJjaTel] after its [needed_kwarg] loop: the SST preprocessing
    (event detection), then
    [if 'smoothing' in kwargs.keys(): smooth = deepcopy(kwargs['smoothing']); kwargs['smoothing'] = False],
    the precipitation loop over the (sorted) regions, and
    [if 'smoothing' in kwargs.keys(): kwargs['smoothing'] = smooth]. *)
Definition EnsoPrJjaTel_body (regs : list string) : ST unit :=
  _ ← PreProcessTS SstModel;
  _ ← PreProcessTS SstObs;
  kw ← get_kw;
  smooth ← (match kw !! "smoothing" with
            | Some v => _ ← put_kw (<["smoothing" := VBool false]> kw); mret (Some v)
            | None => mret None
            end);
  _ ← pr_regions regs;
  kw' ← get_kw;
  match kw' !! "smoothing", smooth with
  | Some _, Some v => put_kw (<["smoothing" := v]> kw')
  | _, _ => mret tt
  end.

(** The local kwargs when the function returns, and its [PreProcessTS] calls in order. *)
Definition EnsoPrJjaTel_kwargs (kw0 : kwargs) (regs : list string) : kwargs * list pp_call :=
  let kw := fill_defaults (needed_kwarg EnsoPrJjaTel) kw0 in
  let '(_, s) := EnsoPrJjaTel_body regs {| st_kw := kw; st_trace := [] |} in
  (st_kw s, reverse (st_trace s)).

(* ------------------------------------------------------------------ *)
(** ** EnsoPrJjaTel: the sign-agreement statistic ([value2]) *)

(** [numpy.sign] on a finite value. *)
Definition np_sign (x : Q) : Z :=
  match (x ?= 0)%Q with Gt => 1 | Lt => -1 | Eq => 0 end%Z.

(** [sum([1. for vmod,vobs in zip(...) if NUMPYsign(vmod)==NUMPYsign(vobs)])]:
    the number of agreeing pairs. *)
Fixpoint count_agree (pairs : list (Q * Q)) : nat :=
  match pairs with
  | [] => O
  | (vmod, vobs) :: rest =>
      (if Z.eqb (np_sign vmod) (np_sign vobs) then 1 else 0) + count_agree rest
  end.

(** [signAgreement = sum(...)/len(list_composite_model)], [zip] being
    [combine]; [None] is the [ZeroDivisionError] of an empty region list. *)
Definition sign_agreement (list_composite_model list_composite_obs : list Q) : option Q :=
  match length list_composite_model with
  | O => None
  | n => Some (inject_Z (Z.of_nat (count_agree (combine list_composite_model list_composite_obs)))
               / inject_Z (Z.of_nat n))%Q
  end.

(* ------------------------------------------------------------------ *)
(** ** Event detection and compositing *)

(** Month offsets of a season, counted from January of the event year:
    a season spanning the new year ("DJF", "NDJ") is attributed to the
    year of its December. *)
Definition season_months (season : string) : list nat :=
  match season with
  | "DJF" => [11; 12; 13]%nat
  | "NDJ" => [10; 11; 12]%nat
  | "JJA" => [5; 6; 7]%nat
  | "MAM" => [2; 3; 4]%nat
  | "SON" => [8; 9; 10]%nat
  | "DEC" => [11]%nat
  | _ => []
  end.

Definition Qmean (xs : list Q) : Q :=
  (fold_right Qplus 0 xs / inject_Z (Z.of_nat (length xs)))%Q.

(** The season's mean in year [y] of a monthly series, when all its
    months are in the record. *)
Definition seasonal_value (series : list Q) (season : string) (y : nat) : option Q :=
  match season_months season with
  | [] => None
  | ms => vs ← mapM (fun k => series !! (12 * y + k)%nat) ms; Some (Qmean vs)
  end.

Section Events.
(** The standard deviation of the toolkit ([EnsoUvcdatToolsLib.Std]). *)
Variable Std : list Q -> Q.

(** Modelled from the spec: [EnsoUvcdatToolsLib.DetectEvents] (not part of
    the sources).  A year is an event when its seasonal value, divided by
    the series' standard deviation when [normalization] is set, is
    [>= threshold] ([nino = True]) or [<= threshold] ([nino = False],
    threshold given negative); years are returned in ascending order. *)
Definition is_event (series : list Q) (season : string) (threshold : Q)
    (normalization nino : bool) (y : nat) : bool :=
  match seasonal_value series season y with
  | None => false
  | Some v =>
      let v' := if normalization then (v / Std series)%Q else v in
      if nino then Qle_bool threshold v' else Qle_bool v' threshold
  end.

Definition DetectEvents (series : list Q) (season : string) (threshold : Q)
    (normalization nino : bool) : list nat :=
  List.filter (is_event series season threshold normalization nino)
              (seq 0 (length series / 12)).
End Events.

(** Modelled from the spec: the window of [EnsoUvcdatToolsLib.Composite]
    with [nbr_years_window = W] (not part of the sources): [12*W]
    consecutive months placed so that the December of event year [y] is at
    position [12*(W/2) + 11]; [None] when the window leaves the record. *)
Definition event_window (series : list Q) (W y : nat) : option (list Q) :=
  if (W / 2 <=? y)%nat && (12 * (y - W / 2) + 12 * W <=? length series)%nat
  then Some (take (12 * W) (drop (12 * (y - W / 2)) series))
  else None.

(** Pointwise mean of windows of length [n]. *)
Definition mean_pointwise (n : nat) (ws : list (list Q)) : list Q :=
  map (fun i => Qmean (map (fun w => nth i w 0%Q) ws)) (seq 0 n).

(** Modelled from the spec: [Composite(..., nbr_years_window=W)]: the
    pointwise mean of the windows of the events whose window fits in the
    record; [None] (an undefined composite) when no window is retained. *)
Definition CompositeWindow (series : list Q) (event_years : list nat) (W : nat) : option (list Q) :=
  match omap (event_window series W) event_years with
  | [] => None
  | ws => Some (mean_pointwise (12 * W) ws)
  end.

(* ================================================================== *)
(** * The plotting driver (src/plots/driver_portraitplot.py) *)

(** Parsed JSON, as [json.load] returns it: numbers are the floats of the
    file, objects keep their key/value pairs in file order. *)
Inductive json :=
| JNull
| JBool (b : bool)
| JNum (q : Q)
| JStr (s : string)
| JList (xs : list json)
| JObj (kvs : list (string * json)).

(** Lookup in the dict built from a JSON object: a later binding of a key
    overrides an earlier one. *)
Definition jlookup (k : string) (kvs : list (string * json)) : option json :=
  fold_left (fun acc '(k', v) => if String.eqb k k' then Some v else acc) kvs None.

Inductive drv_err :=
| DIndexError
| DKeyError (k : string)
| DTypeError
| DNoReference (proj mc mod_ met : string) (list_ref : list string).

Inductive warning :=
| RefChanged (proj mc mod_ met my_ref ref : string).

(** The driver's computations: the warnings printed so far, and either the
    exception raised or the value. *)
Definition drv (A : Type) : Type := (list warning * (drv_err + A))%type.

Global Instance drv_ret : MRet drv := fun _ a => ([], inr a).
Global Instance drv_bind : MBind drv := fun _ _ f m =>
  match m.2 with
  | inr a => let r := f a in (m.1 ++ r.1, r.2)
  | inl e => (m.1, inl e)
  end.

Definition raise {A : Type} (e : drv_err) : drv A := ([], inl e).

(** Modelled from the spec: [EnsoErrorsWarnings.MyError] raises a fatal
    error and [EnsoErrorsWarnings.MyWarning] prints a warning and returns. *)
Definition MyError {A : Type} (e : drv_err) : drv A := raise e.
Definition MyWarning (w : warning) : drv unit := ([w], inr tt).

(** [j[k]]: a [KeyError] when the dict lacks the key, a [TypeError] when
    [j] is not a dict. *)
Definition jget (j : json) (k : string) : drv json :=
  match j with
  | JObj kvs => match jlookup k kvs with Some v => mret v | None => raise (DKeyError k) end
  | _ => raise DTypeError
  end.

(** [j.keys()]. *)
Definition jkeys (j : json) : drv (list string) :=
  match j with
  | JObj kvs => mret (map fst kvs)
  | _ => raise DTypeError
  end.

Definition experiment : string := "historical".
Definition path_in : string := "data".

Definition OSpath__join (d f : string) : string := (d ++ "/" ++ f)%string.

(** fnmatch of a file name against a pattern whose only wildcard is ['?']
    (one arbitrary character), as in the driver's patterns. *)
Fixpoint glob_match (pat name : list Ascii.ascii) : bool :=
  match pat, name with
  | [], [] => true
  | c :: p, d :: n =>
      if Ascii.eqb c "?"%char then glob_match p n
      else if Ascii.eqb c d then glob_match p n else false
  | _, _ => false
  end.

Definition lname (project metric_collection : string) : string :=
  (project ++ "_" ++ experiment ++ "_" ++ metric_collection ++ "_v2019????_modified.json")%string.

Definition matches (project metric_collection f : string) : bool :=
  glob_match (list_ascii_of_string (lname project metric_collection)) (list_ascii_of_string f).

(** [read_data]: [listing] is the directory [path_in] in the order
    [glob.iglob] yields it, [load] parses a file.  [list(...)[0]] on no
    match raises [IndexError]. *)
Definition read_data (listing : list string) (load : string -> json)
    (project metric_collection : string) : drv (string * json) :=
  match List.find (matches project metric_collection) listing with
  | None => raise DIndexError
  | Some f =>
      let filename_js := OSpath__join path_in f in
      r ← jget (load filename_js) "RESULTS";
      m ← jget r "model";
      mret (filename_js, m)
  end.

Definition sentinel : json := JNum (inject_Z (10 ^ 20)).

Definition taux_bcc (mod_ met : string) : bool :=
  match String.index 0 "Taux" met with Some _ => String.eqb mod_ "BCC-ESM1" | None => false end.

(** Choice of the reference of one (model, metric) cell.  The source sorts
    [list_ref] case-insensitively; the order only shows in the message. *)
Definition select_reference (proj mc mod_ met ref : string) (list_ref : list string) : drv string :=
  if bool_decide (ref ∈ list_ref) then mret ref
  else
    my_ref ← (if bool_decide ("ERA-Interim" ∈ list_ref) then mret "ERA-Interim"
              else if bool_decide ("ERA-Interim_ERA-Interim" ∈ list_ref)
                   then mret "ERA-Interim_ERA-Interim"
                   else MyError (DNoReference proj mc mod_ met list_ref));
    MyWarning (RefChanged proj mc mod_ met my_ref ref);;
    mret my_ref.

(** The value stored in [dict2[met]] once [my_ref] is chosen; the
    condition short-circuits as Python's [and]/[or]. *)
Definition read_cell (mod_ met : string) (data_met : json) (my_ref : string) : drv json :=
  if taux_bcc mod_ met then mret sentinel
  else
    c ← jget data_met my_ref;
    v ← jget c "value";
    match v with JNull => mret sentinel | _ => mret v end.

(** [get_reference] calls [plot_param] of [EnsoPlotLib] (not in src): it
    is a parameter, [None] standing for a raised exception. *)
Definition ref_of (get_reference : string -> string -> option string) (mc met : string) : string :=
  match get_reference mc met with Some r => r | None => "Tropflux" end.

(** One iteration of the [for met in list_metrics] loop. *)
Definition read_metric (get_reference : string -> string -> option string)
    (proj mc mod_ : string) (data_mod : json) (met : string) : drv json :=
  let ref := ref_of get_reference mc met in
  dm ← jget data_mod met;
  data_met ← jget dm "metric";
  list_ref ← jkeys data_met;
  my_ref ← select_reference proj mc mod_ met ref list_ref;
  read_cell mod_ met data_met my_ref.

(** The number the driver stores for (project, collection, model, metric). *)
Definition driver_value (listing : list string) (load : string -> json)
    (get_reference : string -> string -> option string) (proj mc mod_ met : string) : drv json :=
  '(_, data_json) ← read_data listing load proj mc;
  dmod ← jget data_json mod_;
  data_mod ← jget dmod "value";
  read_metric get_reference proj mc mod_ data_mod met.

(** The path of the spec: [j[k1][k2]...[kn]] on nested dicts. *)
Fixpoint json_path (j : json) (ks : list string) : option json :=
  match ks with
  | [] => Some j
  | k :: ks' =>
      match j with
      | JObj kvs => match jlookup k kvs with Some j' => json_path j' ks' | None => None end
      | _ => None
      end
  end.

(** ** Selection of the plotted metrics ([remove_metrics]) *)

(** Python's [needle in hay] on strings. *)
Definition py_in (needle hay : string) : bool :=
  match String.index 0 needle hay with Some _ => true | None => false end.

(** [l.remove(x)]: drops the first occurrence (the source only calls it
    when [x in l]). *)
Fixpoint list_remove (x : string) (l : list string) : list string :=
  match l with
  | [] => []
  | y :: l' => if String.eqb x y then l' else y :: list_remove x l'
  end.

(** [while met in l: l.remove(met)]; each turn shortens [l], so
    [length l + 1] turns are enough. *)
Fixpoint remove_while (fuel : nat) (met : string) (l : list string) : list string :=
  match fuel with
  | O => l
  | S fuel' => if bool_decide (met ∈ l) then remove_while fuel' met (list_remove met l) else l
  end.

Definition remove_all_occ (met : string) (l : list string) : list string :=
  remove_while (S (length l)) met l.

(** [list_met2 = deepcopy(list_met1)]
    [for met in list_met2: if cond(met): while met in list_met1: list_met1.remove(met)] *)
Definition remove_pass (cond : string -> bool) (list_met1 : list string) : list string :=
  fold_left (fun acc met => if cond met then remove_all_occ met acc else acc) list_met1 list_met1.

(** The branch is chosen on the module-level loop variable [mc], not on the
    parameter [metric_collection], which the function never reads. *)
Definition to_remove (mc : string) : list string :=
  if String.eqb mc "ENSO_perf" then
    ["BiasTauxLatRmse"; "BiasTauxLonRmse"; "EnsoPrTsRmse"; "EnsoTauxTsRmse"; "NinaSstDur_1";
     "NinaSstDur_2"; "NinaSstLonRmse_1"; "NinaSstLonRmse_2"; "NinaSstTsRmse_1";
     "NinaSstTsRmse_2"; "NinoSstDiversity_1"; "NinoSstDur_1"; "NinoSstDur_2";
     "NinoSstLonRmse_1"; "NinoSstLonRmse_2"; "NinoSstTsRmse_1"; "NinoSstTsRmse_2"]
  else if String.eqb mc "ENSO_proc" then
    ["EnsodSstOce_1"; "EnsoFbSstLhf"; "EnsoFbSstLwr"; "EnsoFbSstShf"]
  else
    ["EnsoPrMapStd"; "EnsoSlpMapCorr"; "EnsoSlpMapRmse"; "EnsoSlpMapStd"; "EnsoSstMapStd";
     "NinaPrMap_1Corr"; "NinaPrMap_1Rmse"; "NinaPrMap_1Std"; "NinaPrMap_2Corr";
     "NinaPrMap_2Rmse"; "NinaPrMap_2Std"; "NinaSlpMap_1Corr"; "NinaSlpMap_1Rmse";
     "NinaSlpMap_1Std"; "NinaSlpMap_2Corr"; "NinaSlpMap_2Rmse"; "NinaSlpMap_2Std";
     "NinaSstMap_1Corr"; "NinaSstMap_1Rmse"; "NinaSstMap_1Std"; "NinaSstMap_2Corr";
     "NinaSstMap_2Rmse"; "NinaSstMap_2Std"; "NinaSstLonRmse_1"; "NinaSstLonRmse_2";
     "NinoPrMap_1Corr"; "NinoPrMap_1Rmse"; "NinoPrMap_1Std"; "NinoPrMap_2Corr";
     "NinoPrMap_2Rmse"; "NinoPrMap_2Std"; "NinoSlpMap_1Corr"; "NinoSlpMap_1Rmse";
     "NinoSlpMap_1Std"; "NinoSlpMap_2Corr"; "NinoSlpMap_2Rmse"; "NinoSlpMap_2Std";
     "NinoSstMap_1Corr"; "NinoSstMap_1Rmse"; "NinoSstMap_1Std"; "NinoSstMap_2Corr";
     "NinoSstMap_2Rmse"; "NinoSstMap_2Std"; "NinoSstLonRmse_1"; "NinoSstLonRmse_2"].

(** [remove_metrics(list_met, metric_collection)], with the global [mc]
    made explicit. *)
Definition remove_metrics (mc : string) (list_met : list string) (metric_collection : string)
    : list string :=
  let list_met1 := remove_pass (fun met => bool_decide (met ∈ to_remove mc)) list_met in
  let list_met1 := remove_pass (py_in "Ssh") list_met1 in
  let list_met1 := remove_pass (py_in "Slp") list_met1 in
  let list_met1 := remove_pass (py_in "Nina") list_met1 in
  remove_pass (py_in "Std") list_met1.

(** The metrics the driver keeps, read off the five passes. *)
Definition kept_metric (mc met : string) : bool :=
  negb (bool_decide (met ∈ to_remove mc)) && negb (py_in "Ssh" met) && negb (py_in "Slp" met)
  && negb (py_in "Nina" met) && negb (py_in "Std" met).

(** ** The main loop of the driver *)

(** [str.upper] on the ASCII names of models and metrics. *)
Definition ascii_upper (c : Ascii.ascii) : Ascii.ascii :=
  let n := Ascii.nat_of_ascii c in
  if (97 <=? n)%nat && (n <=? 122)%nat then Ascii.ascii_of_nat (n - 32) else c.

Fixpoint str_upper (s : string) : string :=
  match s with
  | EmptyString => EmptyString
  | String c s' => String (ascii_upper c) (str_upper s')
  end.

(** [sorted(l, key=key)]: a stable sort (an element goes before the first
    one whose key is not smaller). *)
Fixpoint insert_by (key : string -> string) (x : string) (l : list string) : list string :=
  match l with
  | [] => [x]
  | y :: l' => if String.leb (key x) (key y) then x :: l else y :: insert_by key x l'
  end.

Definition sorted_by (key : string -> string) (l : list string) : list string :=
  fold_right (insert_by key) [] l.

(** The keys of the dict [json.load] builds from an object: the first
    occurrence of each key, in file order. *)
Fixpoint dedup_first (l : list string) : list string :=
  match l with
  | [] => []
  | x :: l' => x :: List.filter (fun y => negb (String.eqb x y)) (dedup_first l')
  end.

Definition jdict_keys (j : json) : drv (list string) :=
  match j with
  | JObj kvs => mret (dedup_first (map fst kvs))
  | _ => raise DTypeError
  end.

(** [for met in list_metrics: ... dict2[met] = ...] *)
Fixpoint fill_row (get_reference : string -> string -> option string) (proj mc mod_ : string)
    (data_mod : json) (list_metrics : list string) (dict2 : gmap string json) : drv (gmap string json) :=
  match list_metrics with
  | [] => mret dict2
  | met :: mets =>
      v ← read_metric get_reference proj mc mod_ data_mod met;
      fill_row get_reference proj mc mod_ data_mod mets (<[met := v]> dict2)
  end.

(** The body of [for mod in list_models]: the row [dict2] of one model. *)
Definition row_of (get_reference : string -> string -> option string) (proj mc : string)
    (data_json : json) (mod_ : string) : drv (gmap string json) :=
  dm ← jget data_json mod_;
  data_mod ← jget dm "value";
  keys ← jdict_keys data_mod;
  let list_metrics := remove_metrics mc (sorted_by str_upper keys) mc in
  fill_row get_reference proj mc mod_ data_mod list_metrics ∅.

Fixpoint fill_models (get_reference : string -> string -> option string) (proj mc : string)
    (data_json : json) (list_models : list string) (dict1 : gmap string (gmap string json))
    : drv (gmap string (gmap string json)) :=
  match list_models with
  | [] => mret dict1
  | mod_ :: mods =>
      dict2 ← row_of get_reference proj mc data_json mod_;
      fill_models get_reference proj mc data_json mods (<[mod_ := dict2]> dict1)
  end.

(** [for proj in list_project:] with the tables [dict1] (model -> row) and
    [dict_mod] (project -> models). *)
Fixpoint fill_projects (listing : list string) (load : string -> json)
    (get_reference : string -> string -> option string) (mc : string) (projs : list string)
    (dict1 : gmap string (gmap string json)) (dict_mod : gmap string (list string))
    : drv (gmap string (gmap string json) * gmap string (list string)) :=
  match projs with
  | [] => mret (dict1, dict_mod)
  | proj :: projs' =>
      '(_, data_json) ← read_data listing load proj mc;
      keys ← jdict_keys data_json;
      let list_models := sorted_by str_upper keys in
      dict1' ← fill_models get_reference proj mc data_json list_models dict1;
      fill_projects listing load get_reference mc projs' dict1' (<[proj := list_models]> dict_mod)
  end.

(** The models a project's file lists, and the row the loop computes for
    one of them, when that project is processed on its own. *)
Definition project_models (listing : list string) (load : string -> json) (mc proj : string)
    : drv (list string) :=
  '(_, data_json) ← read_data listing load proj mc;
  keys ← jdict_keys data_json;
  mret (sorted_by str_upper keys).

Definition project_row (listing : list string) (load : string -> json)
    (get_reference : string -> string -> option string) (mc proj mod_ : string)
    : drv (gmap string json) :=
  '(_, data_json) ← read_data listing load proj mc;
  row_of get_reference proj mc data_json mod_.

(** [try: dict1[mod][met] except: tab[ii, jj] = 1e20 else: tab[ii, jj] = dict1[mod][met]] *)
Definition tab_entry (dict1 : gmap string (gmap string json)) (mod_ met : string) : json :=
  match dict1 !! mod_ with
  | Some dict2 => match dict2 !! met with Some v => v | None => sentinel end
  | None => sentinel
  end.

(** [multiportraitplot]: [lens] lists [len(tab[ii])], the number of rows
    of each panel.  The figure's [GridSpec] has [nbrl] rows, and panel [kk]
    is drawn on the rows [gs[count : count + len(tmp), 0]], [count] growing
    by [len(tmp) + 3] after each panel. *)
Definition nbrl (lens : list nat) : Z :=
  (fold_right (fun l acc => Z.of_nat l + acc) 0 lens + (Z.of_nat (length lens) - 1) * 3)%Z.

Fixpoint panel_rows (count : Z) (lens : list nat) : list (Z * Z) :=
  match lens with
  | [] => []
  | l :: ls => (count, count + Z.of_nat l)%Z :: panel_rows (count + Z.of_nat l + 3)%Z ls
  end.

(** A sample input directory: the two projects both list CCSM4, with
    different numbers. *)
Definition sample_results (x : Q) : json :=
  JObj [("RESULTS", JObj [("model", JObj [("CCSM4", JObj [("value", JObj [
    ("EnsoAmpl", JObj [("metric", JObj [("ERA-Interim", JObj [("value", JNum x)])])]);
    ("NinaSstTsRmse", JObj [("metric", JObj [("ERA-Interim", JObj [("value", JNum x)])])])])])])])].

Definition sample_listing : list string :=
  ["cmip5_historical_ENSO_perf_v20191015_modified.json";
   "cmip6_historical_ENSO_perf_v20191015_modified.json"].

Definition sample_load (fn : string) : json :=
  if String.eqb fn "data/cmip5_historical_ENSO_perf_v20191015_modified.json" then sample_results 1
  else if String.eqb fn "data/cmip6_historical_ENSO_perf_v20191015_modified.json" then sample_results 2
  else JNull.

(** ** Key set announced for the result record (C6) *)

(** The key set the spec announces: fixed keys (with [nyears] and
    [time_period] either plain or split into model/observations), and the
    optional additions. *)
Definition spec_fixed_keys : list string :=
  ["name"; "value"; "value_error"; "units"; "method"; "time_frequency"; "ref"].
Definition spec_nyears_keys : list string :=
  ["nyears"; "nyears_model"; "nyears_observations"; "time_period";
   "time_period_model"; "time_period_observations"].
Definition spec_optional_keys : list string :=
  ["nonlinearity"; "nonlinearity_error"; "value2"; "dive_down_diag"].

Definition spec_allowed_key (k : string) : bool :=
  bool_decide (k ∈ (spec_fixed_keys ++ spec_nyears_keys ++ spec_optional_keys)).

(** The boundary case of the spec: ten years of monthly data whose DJF
    means are [0.4], [0.5], [0.6] in the first three years and [0]
    afterwards; with the warm threshold [0.5] the events are the second and
    third years, never the first. *)
Definition djf_boundary_series : list Q :=
  map (fun i : nat =>
         if (11 <=? i)%nat && (i <=? 13)%nat then (4 # 10)%Q
         else if (23 <=? i)%nat && (i <=? 25)%nat then (5 # 10)%Q
         else if (35 <=? i)%nat && (i <=? 37)%nat then (6 # 10)%Q
         else 0%Q) (seq 0 120).

(* ================================================================== *)
(** * Lemmas about the skeleton *)

Lemma fill_defaults_lookup (needed : list string) (kw : kwargs) (k : string) :
  fill_defaults needed kw !! k =
    match kw !! k with
    | Some v => Some v
    | None => if decide (k ∈ needed) then Some (DefaultArgValues k) else None
    end.
Proof.
  revert kw. induction needed as [|a needed IH]; intros kw; simpl.
  - destruct (kw !! k); done.
  - rewrite IH. destruct (kw !! a) as [va|] eqn:Ha.
    + destruct (kw !! k) as [vk|] eqn:Hk; [done|].
      destruct (decide (k = a)) as [->|Hne]; [congruence|].
      destruct (decide (k ∈ needed)) as [H1|H1];
        destruct (decide (k ∈ a :: needed)) as [H2|H2]; try done.
      * exfalso. apply H2. apply elem_of_cons. by right.
      * apply elem_of_cons in H2 as [?|?]; done.
    + destruct (decide (k = a)) as [->|Hne].
      * rewrite lookup_insert_eq, Ha.
        destruct (decide (a ∈ a :: needed)) as [_|H]; [done|].
        exfalso. apply H. apply elem_of_cons. by left.
      * rewrite lookup_insert_ne by done.
        destruct (kw !! k); [done|].
        destruct (decide (k ∈ needed)) as [H1|H1];
          destruct (decide (k ∈ a :: needed)) as [H2|H2]; try done.
        -- exfalso. apply H2. apply elem_of_cons. by right.
        -- apply elem_of_cons in H2 as [?|?]; done.
Qed.

Lemma fill_defaults_keep (needed : list string) (kw : kwargs) (k : string) (v : pyval) :
  kw !! k = Some v -> fill_defaults needed kw !! k = Some v.
Proof. intros H. rewrite fill_defaults_lookup, H. done. Qed.

Lemma min_time_steps_needed (m : metric) : "min_time_steps" ∈ needed_kwarg m.
Proof. destruct m; simpl; set_solver. Qed.

Lemma run_metric_unfold (m : metric) (debug : pyval) (kw : kwargs) (ls : series_lengths) :
  run_metric m debug kw ls =
    match check_min_length m (fill_defaults (needed_kwarg m) kw) ls with
    | Err e => Err e
    | Ok _ =>
        if areacell_under_debug m && negb (py_is_True debug)
        then Err (EUnboundLocalError "model_areacell")
        else
          match (if has_regrid_step m then regrid_step (fill_defaults (needed_kwarg m) kw)
                 else mret false) with
          | Err e => Err e
          | Ok r => Ok {| out_keys := record_keys m; out_regridded := r |}
          end
    end.
Proof.
  unfold run_metric, mbind, res_bind.
  destruct (check_min_length _ _ _); [|done].
  destruct (_ && _); [done|].
  destruct (has_regrid_step m); [|done].
  destruct (regrid_step _); done.
Qed.

(** The areacells are bound unless the function is [BiasPrRmse] called
    without [debug=True]. *)
Lemma areacell_bound (m : metric) (debug : pyval) :
  m <> BiasPrRmse \/ debug = VBool true ->
  areacell_under_debug m && negb (py_is_True debug) = false.
Proof. intros [Hm| ->]; [destruct m; done|by rewrite andb_false_r]. Qed.


(** The "too short" errors of a call are exactly those of its length check. *)
Lemma run_metric_short (m : metric) (debug : pyval) (kw : kwargs) (ls : series_lengths)
    (fn which : string) (l mini : Z) :
  run_metric m debug kw ls = Err (ETooShort fn which l mini) <->
  check_min_length m (fill_defaults (needed_kwarg m) kw) ls = Err (ETooShort fn which l mini).
Proof.
  rewrite run_metric_unfold. destruct (check_min_length _ _ _) as [[]|e]; [|split; congruence].
  split; [|discriminate]. intros H. exfalso. revert H.
  destruct (_ && _); [discriminate|].
  destruct (has_regrid_step m); [|discriminate].
  unfold regrid_step, kw_get, mbind, res_bind.
  destruct (_ !! "regridding") as [[]|]; try discriminate. case_decide; discriminate.
Qed.

(** When the minimum is not an integer the check passes. *)
Lemma check_min_length_no_int (m : metric) (kw : kwargs) (ls : series_lengths) (v : pyval) :
  kw !! "min_time_steps" = Some v -> py_int v = None ->
  check_min_length m kw ls = Ok tt.
Proof.
  intros Hk Hv. unfold check_min_length, CheckTime, kw_get.
  destruct (length_check_of m); rewrite Hk; cbn; rewrite Hv; done.
Qed.

(* ================================================================== *)
(** * C1: the minimum-length criterion *)

(** C1: in every metric function, when the caller passes an integer
    [min_time_steps] and a checked series is shorter than it, the call fails
    with a "too short time-period" error carrying the function name, the
    series length and the minimum; when [min_time_steps] is absent, [None]
    or not an integer, the length check passes and never raises that
    error. *)
Theorem min_time_steps_enforced (m : metric) (debug : pyval) (kw : kwargs) (ls : series_lengths) :
  (forall mini : Z,
     kw !! "min_time_steps" = Some (VInt mini) ->
     (len_a ls < mini \/ (length_check_of m <> SingleCheck /\ len_b ls < mini))%Z ->
     exists which l, (l = len_a ls \/ l = len_b ls) /\ (l < mini)%Z /\
       run_metric m debug kw ls = Err (ETooShort (metric_name m) which l mini)) /\
  ((forall v, kw !! "min_time_steps" = Some v -> py_int v = None) ->
     check_min_length m (fill_defaults (needed_kwarg m) kw) ls = Ok tt /\
     forall fn which l mini, run_metric m debug kw ls <> Err (ETooShort fn which l mini)).
Proof.
  split.
  - intros mini Hk Hlen. setoid_rewrite run_metric_short.
    unfold check_min_length, CheckTime, kw_get.
    rewrite (fill_defaults_keep _ _ _ _ Hk). cbn [mbind res_bind py_int].
    destruct (length_check_of m) eqn:E.
    + destruct (Z.ltb_spec (len_a ls) mini).
      * eauto 6.
      * destruct (Z.ltb_spec (len_b ls) mini); [eauto 6|lia].
    + destruct (Z.ltb_spec (len_a ls) mini); [eauto 6|].
      destruct Hlen as [|[]]; [lia|done].
    + destruct (Z.ltb_spec (len_a ls) mini).
      * eauto 6.
      * destruct (Z.ltb_spec (len_b ls) mini); [eauto 6|lia].
  - intros Hnot.
    set (kw' := fill_defaults (needed_kwarg m) kw).
    assert (Hv : exists v, kw' !! "min_time_steps" = Some v /\ py_int v = None).
    { subst kw'. rewrite fill_defaults_lookup.
      destruct (kw !! "min_time_steps") as [v|] eqn:Hk.
      - exists v. split; [done|]. by apply Hnot.
      - destruct (decide _) as [_|Hn]; [by eexists|].
        exfalso. apply Hn, min_time_steps_needed. }
    destruct Hv as (v & Hk & Hpy).
    assert (Hc : check_min_length m kw' ls = Ok tt)
      by (eapply check_min_length_no_int; eauto).
    split; [done|].
    intros fn which l mini. rewrite run_metric_short. fold kw'. by rewrite Hc.
Qed.

(** C1, at a concrete call: [EnsoAmpl] on ten years of monthly data with
    [min_time_steps=360]. *)
Lemma min_time_steps_enforced_witness :
  exists which (l : Z), (l = 120 \/ l = 0)%Z /\ (l < 360)%Z /\
    run_metric EnsoAmpl (VBool false) {[ "min_time_steps" := VInt 360 ]} {| len_a := 120; len_b := 0 |}
      = Err (ETooShort "EnsoAmpl" which l 360).
Proof.
  apply (proj1 (min_time_steps_enforced EnsoAmpl (VBool false) {[ "min_time_steps" := VInt 360 ]}
                  {| len_a := 120; len_b := 0 |}) 360%Z).
  - reflexivity.
  - left. simpl. lia.
Defined.

(* ================================================================== *)
(** * C2: the regridding guard *)




(* ================================================================== *)
(** * C9: [regridding] missing from the defaults of the two Lon RMSE composites *)

Lemma regrid_step_default (kw : kwargs) (needed : list string) :
  "regridding" ∈ needed -> kw !! "regridding" = None ->
  regrid_step (fill_defaults needed kw) = Ok false.
Proof.
  intros Hin Hk. unfold regrid_step, kw_get.
  rewrite fill_defaults_lookup, Hk, decide_True by done. done.
Qed.

(** C9: [NinaSstLonRmse] and [NinoSstLonRmse] leave ['regridding'] out of
    [needed_kwarg], so a call without it (whose length check passes) stops
    with a [KeyError] at the regridding step; every other function with a
    regridding step (the Bias*Rmse and Seasonal*Rmse ones) lists it, so
    its absence never raises that [KeyError], and the call runs to
    completion without regridding (for [BiasPrRmse], when [debug=True]:
    otherwise it stops earlier, at its unbound areacell). *)
Theorem lon_rmse_regridding_keyerror (m : metric) (debug : pyval) (kw : kwargs) (ls : series_lengths) :
  kw !! "regridding" = None ->
  ((m = NinaSstLonRmse \/ m = NinoSstLonRmse) ->
     ("regridding" ∉ needed_kwarg m) /\
     (check_min_length m (fill_defaults (needed_kwarg m) kw) ls = Ok tt ->
        run_metric m debug kw ls = Err (EKeyError "regridding"))) /\
  (has_regrid_step m = true -> m <> NinaSstLonRmse -> m <> NinoSstLonRmse ->
     ("regridding" ∈ needed_kwarg m) /\
     (check_min_length m (fill_defaults (needed_kwarg m) kw) ls = Ok tt ->
        run_metric m debug kw ls <> Err (EKeyError "regridding") /\
        ((m <> BiasPrRmse \/ debug = VBool true) ->
           run_metric m debug kw ls = Ok {| out_keys := record_keys m; out_regridded := false |}))).
Proof.
  intros Hk. split.
  - intros Hm.
    assert (Hn : "regridding" ∉ needed_kwarg m)
      by (destruct Hm as [-> | ->]; simpl; set_solver).
    split; [done|]. intros Hc.
    assert (Hr : has_regrid_step m = true) by (destruct Hm as [-> | ->]; done).
    assert (Hb : m <> BiasPrRmse) by (destruct Hm as [-> | ->]; done).
    rewrite run_metric_unfold, Hc, areacell_bound, Hr by (left; exact Hb).
    unfold regrid_step, kw_get. rewrite fill_defaults_lookup, Hk, decide_False by done.
    done.
  - intros Hr Hm1 Hm2.
    assert (Hin : "regridding" ∈ needed_kwarg m)
      by (destruct m; try discriminate; try congruence; simpl; set_solver).
    split; [done|]. intros Hc.
    rewrite run_metric_unfold, Hc, Hr, regrid_step_default by done. split.
    + by destruct (_ && _).
    + intros Hd. by rewrite areacell_bound.
Qed.

(** C9, at a concrete call: [NinaSstLonRmse] with no keyword arguments. *)
Lemma lon_rmse_regridding_keyerror_witness :
  run_metric NinaSstLonRmse (VBool false) ∅ {| len_a := 120; len_b := 120 |} = Err (EKeyError "regridding").
Proof.
  pose proof (lon_rmse_regridding_keyerror NinaSstLonRmse (VBool false) ∅ {| len_a := 120; len_b := 120 |})
    as H.
  destruct H as [H _].
  - reflexivity.
  - apply H; [by left|]. vm_compute. reflexivity.
Defined.

(* ================================================================== *)
(** * C6: the keys of the result record *)

(** C6, refuted as stated: [EnsoAlphaLhf]'s record has the key
    ['method_nonlinearity'] and [EnsoPrJjaTel]'s has ['units2'], neither of
    which is a fixed key nor one of the optional additions. *)
Lemma result_keys_counterexample :
  "method_nonlinearity" ∈ record_keys EnsoAlphaLhf /\
  spec_allowed_key "method_nonlinearity" = false /\
  "units2" ∈ record_keys EnsoPrJjaTel /\ spec_allowed_key "units2" = false.
Proof. split; [simpl; set_solver|]. split; [reflexivity|].
       split; [simpl; set_solver|reflexivity]. Qed.

(** C6 (as the code has it): every metric function's record contains
    [name], [value], [value_error], [units], [method], [time_frequency] and
    [ref], and either the single-dataset pair [nyears]/[time_period] or the
    model-vs-observations keys [nyears_model], [nyears_observations],
    [time_period_model], [time_period_observations]; any further key is a
    metric-specific addition. *)
Theorem result_keys_common (m : metric) :
  Forall (fun k => k ∈ record_keys m) spec_fixed_keys /\
  (Forall (fun k => k ∈ record_keys m) ["nyears"; "time_period"] \/
   Forall (fun k => k ∈ record_keys m)
     ["nyears_model"; "nyears_observations"; "time_period_model";
      "time_period_observations"]).
Proof.
  destruct m; split;
    try (apply (bool_decide_unpack _); reflexivity);
    first [ left; apply (bool_decide_unpack _); reflexivity
          | right; apply (bool_decide_unpack _); reflexivity ].
Qed.

(* ================================================================== *)
(** * C10: EnsoPrJjaTel's smoothing switch *)

Lemma pr_regions_run (regs : list string) (s : pr_state) :
  st_kw (snd (pr_regions regs s)) = st_kw s /\
  st_trace (snd (pr_regions regs s)) =
    reverse (concat (map (fun r => [{| pp_on := PrModel r; pp_smoothing := st_kw s !! "smoothing" |};
                                    {| pp_on := PrObs r; pp_smoothing := st_kw s !! "smoothing" |}])
                         regs)) ++ st_trace s.
Proof.
  revert s. induction regs as [|r regs IH]; intros s; [done|].
  cbn [pr_regions]. unfold mbind, ST_bind, pr_region, PreProcessTS. simpl.
  destruct (IH {| st_kw := st_kw s;
                  st_trace := {| pp_on := PrObs r; pp_smoothing := st_kw s !! "smoothing" |}
                              :: {| pp_on := PrModel r; pp_smoothing := st_kw s !! "smoothing" |}
                              :: st_trace s |}) as [Hk Ht].
  destruct (pr_regions regs _) as [u s'] eqn:E. simpl in *.
  split; [done|]. rewrite Ht.
  rewrite reverse_cons, reverse_cons, <- !app_assoc. done.
Qed.

Lemma pr_calls_targets (regs : list string) (o : option pyval) :
  map pp_on (concat (map (fun r => [{| pp_on := PrModel r; pp_smoothing := o |};
                                    {| pp_on := PrObs r; pp_smoothing := o |}]) regs)) =
  concat (map (fun r => [PrModel r; PrObs r]) regs).
Proof. induction regs as [|r regs IH]; [done|]. simpl. by rewrite IH. Qed.

Lemma pr_calls_targets_smoothing (regs : list string) (o : option pyval) :
  Forall (fun c => (exists r, pp_on c = PrModel r \/ pp_on c = PrObs r) /\ pp_smoothing c = o)
    (concat (map (fun r => [{| pp_on := PrModel r; pp_smoothing := o |};
                            {| pp_on := PrObs r; pp_smoothing := o |}]) regs)).
Proof.
  induction regs as [|r regs IH]; simpl; [done|].
  constructor; [split; [eauto|done]|].
  constructor; [split; [eauto|done]|]. done.
Qed.

(** C10: [EnsoPrJjaTel] hands the caller's smoothing option (or its
    default) to the two SST [PreProcessTS] calls of the event detection,
    [False] to every precipitation [PreProcessTS] call, and returns with its
    kwargs exactly as they were after the defaults were filled in, so the
    [smoothing] entry is the one passed in. *)
Theorem pr_smoothing_restored (kw0 : kwargs) (regs : list string) :
  fst (EnsoPrJjaTel_kwargs kw0 regs) = fill_defaults (needed_kwarg EnsoPrJjaTel) kw0 /\
  (forall v, kw0 !! "smoothing" = Some v -> fst (EnsoPrJjaTel_kwargs kw0 regs) !! "smoothing" = Some v) /\
  map pp_on (snd (EnsoPrJjaTel_kwargs kw0 regs)) =
    [SstModel; SstObs] ++ concat (map (fun r => [PrModel r; PrObs r]) regs) /\
  Forall (fun c => match pp_on c with
                   | SstModel | SstObs =>
                       pp_smoothing c = fill_defaults (needed_kwarg EnsoPrJjaTel) kw0 !! "smoothing"
                   | PrModel _ | PrObs _ => pp_smoothing c = Some (VBool false)
                   end) (snd (EnsoPrJjaTel_kwargs kw0 regs)).
Proof.
  set (kw := fill_defaults (needed_kwarg EnsoPrJjaTel) kw0).
  assert (Hs : exists v0, kw !! "smoothing" = Some v0).
  { subst kw. rewrite fill_defaults_lookup.
    destruct (kw0 !! "smoothing"); [by eexists|].
    rewrite decide_True by (simpl; set_solver). by eexists. }
  destruct Hs as [v0 Hv0].
  unfold EnsoPrJjaTel_kwargs. fold kw.
  unfold EnsoPrJjaTel_body, mbind, ST_bind, PreProcessTS, get_kw, put_kw, mret, ST_ret.
  simpl. rewrite Hv0. simpl.
  set (s1 := {| st_kw := <["smoothing":=VBool false]> kw; st_trace := _ |}).
  destruct (pr_regions_run regs s1) as [Hk Ht].
  destruct (pr_regions regs s1) as [u s2] eqn:E. simpl in Hk, Ht.
  rewrite Hk. subst s1. simpl. rewrite lookup_insert_eq.
  simpl in Ht. rewrite Ht, lookup_insert_eq. simpl.
  rewrite insert_insert_eq, insert_id by done.
  split; [done|]. split.
  { intros v Hv. subst kw. rewrite (fill_defaults_keep _ _ _ _ Hv) in Hv0.
    rewrite (fill_defaults_keep _ _ _ _ Hv). done. }
  rewrite reverse_app, reverse_involutive. simpl.
  split.
  - by rewrite pr_calls_targets.
  - constructor; [done|]. constructor; [done|].
    eapply Forall_impl; [apply pr_calls_targets_smoothing|].
    intros c [[r [-> | ->]] Hc]; done.
Qed.

(* ================================================================== *)
(** * C5: the sign-agreement fraction *)

Lemma np_sign_opp (x : Q) : np_sign (- x) = (- np_sign x)%Z.
Proof.
  unfold np_sign.
  destruct (Qcompare_spec x 0) as [H|H|H];
    destruct (Qcompare_spec (- x) 0) as [H'|H'|H']; try done; lra.
Qed.

Lemma np_sign_zero (x : Q) : np_sign x = 0%Z -> (x == 0)%Q.
Proof.
  unfold np_sign. destruct (Qcompare_spec x 0); done.
Qed.

Lemma count_agree_le (l : list (Q * Q)) : (count_agree l <= length l)%nat.
Proof. induction l as [|[a b] l IH]; simpl; [lia|]. destruct (Z.eqb _ _); lia. Qed.

Lemma count_agree_same (l : list Q) : count_agree (combine l l) = length l.
Proof. induction l as [|a l IH]; simpl; [done|]. rewrite Z.eqb_refl, IH. done. Qed.

Lemma count_agree_opp (l : list Q) :
  Forall (fun x => ~ (x == 0)%Q) l -> count_agree (combine l (map Qopp l)) = O.
Proof.
  induction 1 as [|a l Ha Hl IH]; simpl; [done|]. rewrite IH, np_sign_opp.
  destruct (Z.eqb_spec (np_sign a) (- np_sign a)) as [E|E]; [|done].
  exfalso. apply Ha, np_sign_zero. lia.
Qed.

Lemma inject_nat_pos (n : nat) : (0 < n)%nat -> (0 < inject_Z (Z.of_nat n))%Q.
Proof. intros Hn. change 0%Q with (inject_Z 0). rewrite <- Zlt_Qlt. lia. Qed.

Lemma frac_bounds (c n : nat) : (c <= n)%nat -> (0 < n)%nat ->
  (0 <= inject_Z (Z.of_nat c) / inject_Z (Z.of_nat n) <= 1)%Q.
Proof.
  intros Hc Hn. pose proof (inject_nat_pos n Hn) as Hpos.
  split.
  - apply Qle_shift_div_l; [done|]. rewrite Qmult_0_l.
    change 0%Q with (inject_Z 0). rewrite <- Zle_Qle. lia.
  - apply Qle_shift_div_r; [done|].
    change 1%Q with (inject_Z 1). rewrite <- inject_Z_mult, <- Zle_Qle. lia.
Qed.

(** C5: for a non-empty region list, [value2] is defined and lies in
    [0, 1]; it is 1 when the model and observed composites are the same
    list, and 0 when the observed list is the negation of the model list
    with no zero element. *)
Theorem sign_agreement_bounds (lm lo : list Q) :
  lm <> [] ->
  (exists f, sign_agreement lm lo = Some f /\ (0 <= f <= 1)%Q) /\
  (exists f, sign_agreement lm lm = Some f /\ (f == 1)%Q) /\
  (Forall (fun x => ~ (x == 0)%Q) lm ->
     exists f, sign_agreement lm (map Qopp lm) = Some f /\ (f == 0)%Q).
Proof.
  intros Hne. unfold sign_agreement.
  destruct (length lm) as [|n] eqn:Hlen.
  { destruct lm; done. }
  pose proof (inject_nat_pos (S n) ltac:(lia)) as Hpos.
  split; [|split].
  - eexists. split; [reflexivity|]. apply frac_bounds; [|lia].
    rewrite <- Hlen. etrans; [apply count_agree_le|].
    rewrite length_combine. lia.
  - eexists. split; [reflexivity|].
    rewrite count_agree_same, Hlen. field. lra.
  - intros Hnz. eexists. split; [reflexivity|].
    rewrite count_agree_opp by done. simpl. field. lra.
Qed.

(** C5, at a concrete region list. *)
Lemma sign_agreement_bounds_witness :
  exists f, sign_agreement [1; -2; 3]%Q [2; 5; 1]%Q = Some f /\ (0 <= f <= 1)%Q.
Proof.
  apply (sign_agreement_bounds [1; -2; 3]%Q [2; 5; 1]%Q). discriminate.
Defined.

(* ================================================================== *)
(** * C3: the event threshold *)

(** C3: a year is returned by [DetectEvents] exactly when it is a year of
    the record whose seasonal value (divided by the standard deviation of
    the series when [normalization] is set) is [>= threshold] for the warm
    sign, or [<= threshold] for the cold sign. *)
Theorem detect_events_threshold (Std : list Q -> Q) (series : list Q) (season : string)
    (threshold : Q) (normalization nino : bool) (y : nat) :
  In y (DetectEvents Std series season threshold normalization nino) <->
  (y < length series / 12)%nat /\
  exists v, seasonal_value series season y = Some v /\
    (let v' := if normalization then (v / Std series)%Q else v in
     if nino then (threshold <= v')%Q else (v' <= threshold)%Q).
Proof.
  unfold DetectEvents. rewrite filter_In, in_seq.
  unfold is_event.
  split.
  - intros [Hy Hev]. split; [lia|].
    destruct (seasonal_value series season y) as [v|]; [|discriminate].
    exists v. split; [done|].
    destruct nino; by apply Qle_bool_iff.
  - intros [Hy [v [Hv Hc]]]. split; [lia|]. rewrite Hv.
    destruct nino; by apply Qle_bool_iff.
Qed.

Example detect_events_boundary :
  DetectEvents (fun _ => 1%Q) djf_boundary_series "DJF" (5 # 10) false true = [1; 2]%nat.
Proof. vm_compute. reflexivity. Qed.

(* ================================================================== *)
(** * C4: the windowed composite *)

(** C4: with [nbr_years_window = W], a window is kept exactly when it fits
    in the record; a kept window is the [12*W] consecutive months that put
    the event's December at position [12*(W/2)+11]; the composite is the
    pointwise mean of the kept windows, of length [12*W], and is undefined
    when none is kept.  With a five-year record and [W = 6] the event of the
    first year (and in fact every event) is dropped. *)
Theorem composite_window_alignment (series : list Q) (event_years : list nat) (W : nat) :
  (0 < W)%nat ->
  (forall y, is_Some (event_window series W y) <->
             (W / 2 <= y /\ 12 * (y - W / 2) + 12 * W <= length series)%nat) /\
  (forall y w, event_window series W y = Some w ->
     length w = (12 * W)%nat /\
     (forall i, (i < 12 * W)%nat -> w !! i = series !! (12 * (y - W / 2) + i)%nat) /\
     w !! (12 * (W / 2) + 11)%nat = series !! (12 * y + 11)%nat) /\
  (CompositeWindow series event_years W = None <->
     Forall (fun y => event_window series W y = None) event_years) /\
  (forall c, CompositeWindow series event_years W = Some c ->
     length c = (12 * W)%nat /\
     forall i, (i < 12 * W)%nat ->
       c !! i = Some (Qmean (map (fun w => nth i w 0%Q) (omap (event_window series W) event_years)))) /\
  (length series = 60%nat -> W = 6%nat ->
     event_window series W 0 = None /\ CompositeWindow series event_years W = None).
Proof.
  intros HW.
  assert (Hwin : forall y, event_window series W y = None <->
                   ~ (W / 2 <= y /\ 12 * (y - W / 2) + 12 * W <= length series)%nat).
  { intros y. unfold event_window.
    destruct ((W / 2 <=? y) && (12 * (y - W / 2) + 12 * W <=? length series))%nat eqn:E.
    - apply andb_true_iff in E as [E1 E2]. apply Nat.leb_le in E1, E2.
      split; [done|]. intros H. exfalso. by apply H.
    - apply andb_false_iff in E. split; [|done]. intros _ [H1 H2].
      destruct E as [E|E]; apply Nat.leb_gt in E; lia. }
  split; [|split; [|split; [|split]]].
  - intros y. split.
    + intros Hs. destruct (decide ((W / 2 <= y)%nat /\ (12 * (y - W / 2) + 12 * W <= length series)%nat))
        as [|Hn]; [done|].
      apply Hwin in Hn. rewrite Hn in Hs. by destruct Hs.
    + intros Hc. destruct (event_window series W y) eqn:E; [by eexists|].
      by apply Hwin in E.
  - intros y w Hw. unfold event_window in Hw.
    pose proof (Nat.div_mod W 2 ltac:(lia)) as Hdm.
    pose proof (Nat.mod_upper_bound W 2 ltac:(lia)) as Hmb.
    remember (W / 2)%nat as h eqn:Hh. remember (W mod 2)%nat as r eqn:Hr.
    destruct ((h <=? y) && (12 * (y - h) + 12 * W <=? length series))%nat eqn:E;
      [|discriminate].
    apply andb_true_iff in E as [E1 E2]. apply Nat.leb_le in E1, E2.
    injection Hw as <-.
    assert (Hlt : forall i, (i < 12 * W)%nat ->
                  take (12 * W) (drop (12 * (y - h)) series) !! i = series !! (12 * (y - h) + i)%nat).
    { intros i Hi. rewrite lookup_take_lt by done. apply lookup_drop. }
    split; [|split; [done|]].
    + rewrite length_take_le; [done|]. rewrite length_drop. lia.
    + rewrite Hlt by lia. f_equal. lia.
  - unfold CompositeWindow. split.
    + intros H. destruct (omap (event_window series W) event_years) eqn:E; [|done].
      clear H. induction event_years as [|y ys IH]; [done|].
      simpl in E. destruct (event_window series W y) eqn:Ey; [done|].
      constructor; auto.
    + intros H. induction H as [|y ys Hy _ IH]; [done|].
      simpl. rewrite Hy. done.
  - intros c Hc. unfold CompositeWindow in Hc.
    destruct (omap (event_window series W) event_years) as [|w ws] eqn:E; [done|].
    injection Hc as <-. unfold mean_pointwise. split.
    + rewrite length_map, length_seq. done.
    + intros i Hi. rewrite list_lookup_fmap, lookup_seq_lt by done. done.
  - intros Hlen ->.
    assert (Hnone : forall y, event_window series 6 y = None)
      by (intros y; apply Hwin; rewrite Hlen; lia).
    split; [done|]. unfold CompositeWindow.
    induction event_years as [|y ys IH]; [done|]. simpl. by rewrite Hnone.
Qed.

(** C4, at [W = 3] on a four-year record: the window of the second year is kept. *)
Lemma composite_window_alignment_witness :
  (0 < 3)%nat /\ is_Some (event_window (map (fun i => inject_Z (Z.of_nat i)) (seq 0 48)) 3 1).
Proof.
  split; [lia|].
  destruct (composite_window_alignment (map (fun i => inject_Z (Z.of_nat i)) (seq 0 48)) [1; 2]%nat 3
              ltac:(lia)) as [H1 _].
  apply H1. rewrite length_map, length_seq. vm_compute. lia.
Defined.

(* ================================================================== *)
(** * C7: the reference fallback of the plotting driver *)

Lemma read_cell_no_warning (mod_ met : string) (data_met : json) (my_ref : string) :
  (read_cell mod_ met data_met my_ref).1 = [].
Proof.
  unfold read_cell. destruct (taux_bcc mod_ met); [done|].
  destruct data_met as [| | | | |kvs]; try done. simpl.
  destruct (jlookup my_ref kvs) as [c|]; [|done]. simpl.
  destruct c as [| | | | |kvs']; try done. simpl.
  destruct (jlookup "value" kvs') as [[]|]; done.
Qed.

Lemma read_metric_path (get_reference : string -> string -> option string)
    (proj mc mod_ : string) (data_mod : json) (met : string) (kvs : list (string * json)) :
  json_path data_mod [met; "metric"] = Some (JObj kvs) ->
  read_metric get_reference proj mc mod_ data_mod met =
    (let r := select_reference proj mc mod_ met (ref_of get_reference mc met) (map fst kvs) in
     match r.2 with
     | inr my_ref => (r.1 ++ (read_cell mod_ met (JObj kvs) my_ref).1, (read_cell mod_ met (JObj kvs) my_ref).2)
     | inl e => (r.1, inl e)
     end).
Proof.
  intros Hp. destruct data_mod as [| | | | |d]; try discriminate. simpl in Hp.
  destruct (jlookup met d) as [dm|] eqn:E1; [|discriminate].
  destruct dm as [| | | | |d2]; try discriminate. simpl in Hp.
  destruct (jlookup "metric" d2) as [j|] eqn:E2; [|discriminate].
  injection Hp as ->.
  unfold read_metric. cbn -[jlookup select_reference read_cell]. rewrite E1.
  cbn -[jlookup select_reference read_cell]. rewrite E2.
  cbn -[jlookup select_reference read_cell].
  destruct (select_reference _ _ _ _ _ _) as [ws [e|r]]; done.
Qed.

(** C7: for a (model, metric) cell whose record lists the references
    [list_ref], with [ref] the preferred reference: if [ref] is listed it
    is read with no warning; otherwise the driver falls back to
    'ERA-Interim', else to 'ERA-Interim_ERA-Interim', printing exactly one
    warning (naming the new and the preferred reference) before reading it;
    and when neither is listed it raises the fatal error that names the
    project, the metric collection, the model and the metric. *)
Theorem reference_fallback (get_reference : string -> string -> option string)
    (proj mc mod_ : string) (data_mod : json) (met : string) (kvs : list (string * json)) :
  json_path data_mod [met; "metric"] = Some (JObj kvs) ->
  let ref := ref_of get_reference mc met in
  let list_ref := map fst kvs in
  (ref ∈ list_ref ->
     read_metric get_reference proj mc mod_ data_mod met =
       ([], (read_cell mod_ met (JObj kvs) ref).2)) /\
  (ref ∉ list_ref -> "ERA-Interim" ∈ list_ref ->
     read_metric get_reference proj mc mod_ data_mod met =
       ([RefChanged proj mc mod_ met "ERA-Interim" ref],
        (read_cell mod_ met (JObj kvs) "ERA-Interim").2)) /\
  (ref ∉ list_ref -> "ERA-Interim" ∉ list_ref -> "ERA-Interim_ERA-Interim" ∈ list_ref ->
     read_metric get_reference proj mc mod_ data_mod met =
       ([RefChanged proj mc mod_ met "ERA-Interim_ERA-Interim" ref],
        (read_cell mod_ met (JObj kvs) "ERA-Interim_ERA-Interim").2)) /\
  (ref ∉ list_ref -> "ERA-Interim" ∉ list_ref -> "ERA-Interim_ERA-Interim" ∉ list_ref ->
     read_metric get_reference proj mc mod_ data_mod met =
       ([], inl (DNoReference proj mc mod_ met list_ref))).
Proof.
  intros Hp ref list_ref. rewrite (read_metric_path _ _ _ _ _ _ _ Hp).
  fold ref list_ref. unfold select_reference.
  split; [|split; [|split]].
  - intros Hin. rewrite bool_decide_true by done. simpl.
    by rewrite read_cell_no_warning.
  - intros Hn He. rewrite bool_decide_false, bool_decide_true by done. simpl.
    by rewrite read_cell_no_warning.
  - intros Hn He Hee. rewrite bool_decide_false, bool_decide_false, bool_decide_true by done.
    simpl. by rewrite read_cell_no_warning.
  - intros Hn He Hee. rewrite !bool_decide_false by done. done.
Qed.

(** C7, on a record that lists only 'ERA-Interim' and 'Tropflux' while
    'HadISST' is preferred. *)
Lemma reference_fallback_witness :
  read_metric (fun _ _ => Some "HadISST") "cmip5" "ENSO_perf" "CCSM4"
    (JObj [("EnsoAmpl", JObj [("metric", JObj [("ERA-Interim", JObj [("value", JNum 1)]);
                                               ("Tropflux", JObj [("value", JNum 2)])])])])
    "EnsoAmpl" =
  ([RefChanged "cmip5" "ENSO_perf" "CCSM4" "EnsoAmpl" "ERA-Interim" "HadISST"], inr (JNum 1)).
Proof.
  destruct (reference_fallback (fun _ _ => Some "HadISST") "cmip5" "ENSO_perf" "CCSM4"
    (JObj [("EnsoAmpl", JObj [("metric", JObj [("ERA-Interim", JObj [("value", JNum 1)]);
                                               ("Tropflux", JObj [("value", JNum 2)])])])])
    "EnsoAmpl" [("ERA-Interim", JObj [("value", JNum 1)]); ("Tropflux", JObj [("value", JNum 2)])]
    ltac:(reflexivity)) as [_ [H _]].
  rewrite H; [reflexivity| |]; simpl; rewrite !elem_of_cons, elem_of_nil.
  - intros [Hx|[Hx|Hx]]; discriminate || contradiction.
  - by left.
Defined.

(* ================================================================== *)
(** * C8: which file and which path the driver reads *)

Lemma drv_bind_inr {A B : Type} (m : drv A) (f : A -> drv B) (ws : list warning) (v : B) :
  (m ≫= f) = (ws, inr v) ->
  exists ws1 a ws2, m = (ws1, inr a) /\ f a = (ws2, inr v) /\ ws = ws1 ++ ws2.
Proof.
  destruct m as [ws1 [e|a]]; cbn; [discriminate|].
  destruct (f a) as [ws2 r] eqn:E. cbn. intros [= <- ->]. by exists ws1, a, ws2.
Qed.

Lemma jget_inr (j : json) (k : string) (ws : list warning) (v : json) :
  jget j k = (ws, inr v) -> ws = [] /\ json_path j [k] = Some v.
Proof.
  destruct j as [| | | | |kvs]; try discriminate. cbn.
  destruct (jlookup k kvs); [|discriminate]. by intros [= <- ->].
Qed.

Lemma json_path_cons (kvs : list (string * json)) (k : string) (j : json) (ks : list string) :
  json_path (JObj kvs) [k] = Some j -> json_path (JObj kvs) (k :: ks) = json_path j ks.
Proof.
  cbn. destruct (jlookup k kvs); [|discriminate]. by intros [= ->].
Qed.

Lemma json_path_step (j j' : json) (k : string) (ks : list string) :
  json_path j [k] = Some j' -> json_path j (k :: ks) = json_path j' ks.
Proof.
  destruct j as [| | | | |kvs]; try discriminate. apply json_path_cons.
Qed.

Lemma find_first {A : Type} (p : A -> bool) (l : list A) (x : A) :
  List.find p l = Some x ->
  exists pre post, l = pre ++ x :: post /\ Forall (fun y => p y = false) pre /\ p x = true.
Proof.
  induction l as [|a l IH]; cbn; [discriminate|].
  destruct (p a) eqn:E.
  - intros [= <-]. by exists [], l.
  - intros H. destruct (IH H) as (pre & post & -> & Hf & Hx).
    exists (a :: pre), post. split; [done|]. split; [by constructor|done].
Qed.

Lemma find_none {A : Type} (p : A -> bool) (l : list A) :
  Forall (fun y => p y = false) l -> List.find p l = None.
Proof. induction 1 as [|a l Ha _ IH]; cbn; [done|]. by rewrite Ha. Qed.

Lemma select_reference_inr (proj mc mod_ met ref : string) (list_ref : list string)
    (ws : list warning) (r : string) :
  select_reference proj mc mod_ met ref list_ref = (ws, inr r) ->
  r ∈ [ref; "ERA-Interim"; "ERA-Interim_ERA-Interim"].
Proof.
  unfold select_reference.
  destruct (bool_decide (ref ∈ list_ref)); [intros [= _ <-]; by left|].
  destruct (bool_decide ("ERA-Interim" ∈ list_ref)); [intros [= _ <-]; right; by left|].
  destruct (bool_decide ("ERA-Interim_ERA-Interim" ∈ list_ref));
    [intros [= _ <-]; right; right; by left|discriminate].
Qed.

Lemma read_cell_inr (mod_ met : string) (data_met : json) (my_ref : string)
    (ws : list warning) (v : json) :
  read_cell mod_ met data_met my_ref = (ws, inr v) ->
  json_path data_met [my_ref; "value"] = Some v \/
  (v = sentinel /\ (taux_bcc mod_ met = true \/ json_path data_met [my_ref; "value"] = Some JNull)).
Proof.
  unfold read_cell. destruct (taux_bcc mod_ met) eqn:Et.
  - intros [= _ <-]. right. split; [done|]. by left.
  - intros H. apply drv_bind_inr in H as (ws1 & c & ws2 & Hc & H & _).
    apply drv_bind_inr in H as (ws3 & w & ws4 & Hw & H & _).
    apply jget_inr in Hc as [_ Hc]. apply jget_inr in Hw as [_ Hw].
    rewrite (json_path_step _ _ _ _ Hc).
    destruct w; injection H as _ <-; [right; split; [done|by right]|..]; by left.
Qed.

(** C8: the driver reads the first file of the directory listing whose
    name matches [<project>_<experiment>_<mc>_v2019????_modified.json]
    (an [IndexError] when none does), and the number it stores for a
    (model, metric) cell is the entry at RESULTS, model, <model>, value,
    <metric>, metric, <reference>, value of that file, where <reference> is
    the preferred reference or one of its two fallbacks; the only other
    stored number is the [1e20] placeholder, used for the Taux metrics of
    BCC-ESM1 and for a null entry. *)
Theorem driver_reads_first_match (listing : list string) (load : string -> json)
    (get_reference : string -> string -> option string) (proj mc mod_ met : string) :
  (Forall (fun g => matches proj mc g = false) listing ->
     (driver_value listing load get_reference proj mc mod_ met).2 = inl DIndexError) /\
  (forall ws v, driver_value listing load get_reference proj mc mod_ met = (ws, inr v) ->
   exists pre f post my_ref,
     listing = pre ++ f :: post /\
     Forall (fun g => matches proj mc g = false) pre /\
     matches proj mc f = true /\
     my_ref ∈ [ref_of get_reference mc met; "ERA-Interim"; "ERA-Interim_ERA-Interim"] /\
     (json_path (load (OSpath__join path_in f))
        ["RESULTS"; "model"; mod_; "value"; met; "metric"; my_ref; "value"] = Some v \/
      (v = sentinel /\
       (taux_bcc mod_ met = true \/
        json_path (load (OSpath__join path_in f))
          ["RESULTS"; "model"; mod_; "value"; met; "metric"; my_ref; "value"] = Some JNull)))).
Proof.
  split.
  - intros Hn. unfold driver_value, read_data. by rewrite find_none.
  - intros ws v H. unfold driver_value in H.
    apply drv_bind_inr in H as (ws1 & [fn data_json] & ws2 & Hrd & H & _).
    unfold read_data in Hrd.
    destruct (List.find (matches proj mc) listing) as [f|] eqn:Ef; [|discriminate].
    destruct (find_first _ _ _ Ef) as (pre & post & Hl & Hpre & Hf).
    apply drv_bind_inr in Hrd as (? & r & ? & Hr & Hrd & _).
    apply drv_bind_inr in Hrd as (? & m & ? & Hm & Hrd & _).
    injection Hrd; intros; subst.
    apply jget_inr in Hr as [_ Hr]. apply jget_inr in Hm as [_ Hm].
    apply drv_bind_inr in H as (? & dmod & ? & Hdmod & H & _).
    apply drv_bind_inr in H as (? & data_mod & ? & Hdm & H & _).
    apply jget_inr in Hdmod as [_ Hdmod]. apply jget_inr in Hdm as [_ Hdm].
    unfold read_metric in H.
    apply drv_bind_inr in H as (? & dm & ? & Hdm2 & H & _).
    apply drv_bind_inr in H as (? & data_met & ? & Hmet & H & _).
    apply jget_inr in Hdm2 as [_ Hdm2]. apply jget_inr in Hmet as [_ Hmet].
    apply drv_bind_inr in H as (? & list_ref & ? & _ & H & _).
    apply drv_bind_inr in H as (? & my_ref & ? & Hsel & H & _).
    exists pre, f, post, my_ref.
    split; [done|]. split; [done|]. split; [done|].
    split; [by eapply select_reference_inr|].
    rewrite (json_path_step _ _ _ _ Hr), (json_path_step _ _ _ _ Hm),
      (json_path_step _ _ _ _ Hdmod), (json_path_step _ _ _ _ Hdm),
      (json_path_step _ _ _ _ Hdm2), (json_path_step _ _ _ _ Hmet).
    by eapply read_cell_inr.
Qed.

(** C8, on a directory holding a text file and two result files of the
    pattern: the first of them is read, and its EnsoAmpl entry for CCSM4
    against ERA-Interim is the stored number; an empty directory gives an
    [IndexError]. *)
Lemma driver_reads_first_match_witness :
  let listing := ["notes.txt"; "cmip5_historical_ENSO_perf_v20191015_modified.json";
                  "cmip5_historical_ENSO_perf_v20191231_modified.json"] in
  let load := fun fn : string =>
    if String.eqb fn "data/cmip5_historical_ENSO_perf_v20191015_modified.json" then
      JObj [("RESULTS", JObj [("model", JObj [("CCSM4", JObj [("value", JObj [("EnsoAmpl",
        JObj [("metric", JObj [("ERA-Interim", JObj [("value", JNum 1)])])])])])])])]
    else JNull in
  (driver_value [] load (fun _ _ => Some "ERA-Interim") "cmip5" "ENSO_perf" "CCSM4" "EnsoAmpl").2
    = inl DIndexError /\
  exists pre f post my_ref,
    listing = pre ++ f :: post /\
    Forall (fun g => matches "cmip5" "ENSO_perf" g = false) pre /\
    matches "cmip5" "ENSO_perf" f = true /\
    my_ref ∈ [ref_of (fun _ _ => Some "ERA-Interim") "ENSO_perf" "EnsoAmpl"; "ERA-Interim";
              "ERA-Interim_ERA-Interim"] /\
    (json_path (load (OSpath__join path_in f))
       ["RESULTS"; "model"; "CCSM4"; "value"; "EnsoAmpl"; "metric"; my_ref; "value"] = Some (JNum 1) \/
     (JNum 1 = sentinel /\
      (taux_bcc "CCSM4" "EnsoAmpl" = true \/
       json_path (load (OSpath__join path_in f))
         ["RESULTS"; "model"; "CCSM4"; "value"; "EnsoAmpl"; "metric"; my_ref; "value"] = Some JNull))).
Proof.
  intros listing load. split.
  - apply (driver_reads_first_match [] load (fun _ _ => Some "ERA-Interim")
             "cmip5" "ENSO_perf" "CCSM4" "EnsoAmpl"). constructor.
  - apply (driver_reads_first_match listing load (fun _ _ => Some "ERA-Interim")
             "cmip5" "ENSO_perf" "CCSM4" "EnsoAmpl") with (ws := []).
    vm_compute. reflexivity.
Defined.

(* ================================================================== *)
(** * Extra properties of the plotting driver *)

Lemma filter_ext_in_l {A : Type} (f g : A -> bool) (l : list A) :
  (forall y, In y l -> f y = g y) -> List.filter f l = List.filter g l.
Proof.
  induction l as [|a l IH]; intros H; cbn; [done|].
  rewrite (H a (or_introl eq_refl)), IH by (intros y Hy; apply H; by right). done.
Qed.

Lemma filter_filter_l {A : Type} (f g : A -> bool) (l : list A) :
  List.filter f (List.filter g l) = List.filter (fun y => g y && f y) l.
Proof.
  induction l as [|a l IH]; cbn; [done|].
  destruct (g a); cbn; [destruct (f a)|]; cbn; by rewrite IH.
Qed.

Lemma filter_true_l {A : Type} (f : A -> bool) (l : list A) :
  (forall y, In y l -> f y = true) -> List.filter f l = l.
Proof.
  induction l as [|a l IH]; intros H; cbn; [done|].
  rewrite (H a (or_introl eq_refl)), IH by (intros y Hy; apply H; by right). done.
Qed.

Lemma list_remove_in (x : string) (l : list string) :
  In x l ->
  length (list_remove x l) < length l /\
  List.filter (fun y => negb (String.eqb x y)) (list_remove x l) =
  List.filter (fun y => negb (String.eqb x y)) l.
Proof.
  induction l as [|a l IH]; cbn; [done|]. intros Hin.
  destruct (String.eqb_spec x a) as [<-|Hne]; cbn.
    - split; [lia|done].
  - destruct Hin as [->|Hin]; [done|]. destruct (IH Hin) as [Hl Hf].
    cbn. split; [lia|]. apply String.eqb_neq in Hne. rewrite Hne. cbn. by rewrite Hf.
Qed.

Lemma remove_while_filter (fuel : nat) (met : string) (l : list string) :
  length l < fuel ->
  remove_while fuel met l = List.filter (fun y => negb (String.eqb met y)) l.
Proof.
  revert l. induction fuel as [|fuel IH]; intros l Hl; [lia|]. cbn.
  case_bool_decide as Hin.
  - apply list_elem_of_In in Hin. destruct (list_remove_in met l Hin) as [Hlt Hf].
    rewrite IH by lia. done.
  - symmetry. apply filter_true_l. intros y Hy.
    destruct (String.eqb_spec met y) as [->|]; [|done].
    exfalso. apply Hin. by apply list_elem_of_In.
Qed.

Lemma remove_all_occ_filter (met : string) (l : list string) :
  remove_all_occ met l = List.filter (fun y => negb (String.eqb met y)) l.
Proof. apply remove_while_filter. lia. Qed.

Lemma remove_fold_filter (cond : string -> bool) (xs acc : list string) :
  fold_left (fun acc met => if cond met then remove_all_occ met acc else acc) xs acc =
  List.filter (fun y => negb (cond y && existsb (String.eqb y) xs)) acc.
Proof.
  revert acc. induction xs as [|x xs IH]; intros acc; cbn [fold_left existsb].
  - symmetry. apply filter_true_l. intros y _. by rewrite andb_false_r.
  - rewrite IH. destruct (cond x) eqn:Ex.
    + rewrite remove_all_occ_filter, filter_filter_l. apply filter_ext_in_l. intros y _.
      destruct (String.eqb_spec x y) as [<-|Hne].
      * rewrite Ex, String.eqb_refl. done.
      * rewrite (proj2 (String.eqb_neq y x)) by congruence. done.
    + apply filter_ext_in_l. intros y _.
      destruct (String.eqb_spec y x) as [->|Hne]; [by rewrite Ex|done].
Qed.

Lemma remove_pass_filter (cond : string -> bool) (l : list string) :
  remove_pass cond l = List.filter (fun y => negb (cond y)) l.
Proof.
  unfold remove_pass. rewrite remove_fold_filter. apply filter_ext_in_l. intros y Hy.
  assert (existsb (String.eqb y) l = true) as ->.
  { apply existsb_exists. exists y. split; [done|]. apply String.eqb_refl. }
  by rewrite andb_true_r.
Qed.

Lemma remove_metrics_filter (mc : string) (list_met : list string) (metric_collection : string) :
  remove_metrics mc list_met metric_collection = List.filter (kept_metric mc) list_met.
Proof.
  unfold remove_metrics. rewrite !remove_pass_filter, !filter_filter_l.
  apply filter_ext_in_l. intros y _. unfold kept_metric.
  destruct (bool_decide _), (py_in "Ssh" y), (py_in "Slp" y), (py_in "Nina" y), (py_in "Std" y); done.
Qed.

Lemma insert_by_elem (key : string -> string) (x y : string) (l : list string) :
  y ∈ insert_by key x l <-> y = x \/ y ∈ l.
Proof.
  induction l as [|a l IH]; cbn.
  - rewrite elem_of_cons, elem_of_nil. tauto.
  - destruct (String.leb (key x) (key a)); rewrite !elem_of_cons; [tauto|].
    rewrite IH. tauto.
Qed.

Lemma sorted_by_elem (key : string -> string) (x : string) (l : list string) :
  x ∈ sorted_by key l <-> x ∈ l.
Proof.
  induction l as [|a l IH]; cbn; [done|].
  rewrite insert_by_elem, IH, elem_of_cons. done.
Qed.

Lemma filter_elem_l (f : string -> bool) (x : string) (l : list string) :
  x ∈ List.filter f l <-> x ∈ l /\ f x = true.
Proof. rewrite !list_elem_of_In. apply filter_In. Qed.

Lemma dedup_first_elem (x : string) (l : list string) :
  x ∈ dedup_first l <-> x ∈ l.
Proof.
  induction l as [|a l IH]; cbn; [done|].
  rewrite !elem_of_cons, filter_elem_l, IH.
  destruct (String.eqb_spec a x) as [->|Hne]; cbn; [tauto|].
  split; [tauto|]. intros [->|H]; [by left|right; done].
Qed.

Lemma drv_bind_snd {A B : Type} (m : drv A) (f : A -> drv B) (ws : list warning) (a : A) :
  m = (ws, inr a) -> (m ≫= f).2 = (f a).2.
Proof. intros ->. cbn. by destruct (f a). Qed.

Lemma fill_row_spec (get_reference : string -> string -> option string) (proj mc mod_ : string)
    (data_mod : json) (mets : list string) (dict2 d : gmap string json) (ws : list warning) :
  fill_row get_reference proj mc mod_ data_mod mets dict2 = (ws, inr d) ->
  forall met,
    (met ∈ mets -> exists v, d !! met = Some v /\
       (read_metric get_reference proj mc mod_ data_mod met).2 = inr v) /\
    (met ∉ mets -> d !! met = dict2 !! met).
Proof.
  revert dict2 ws. induction mets as [|m mets IH]; intros dict2 ws H met; cbn in H.
  - injection H as _ ->. split; [by rewrite elem_of_nil|done].
  - apply drv_bind_inr in H as (ws1 & v & ws2 & Hv & H & _).
    destruct (IH _ _ H met) as [Hin Hout]. rewrite elem_of_cons. split.
    + intros Hm. destruct (decide (met ∈ mets)) as [Hi|Hn]; [by apply Hin|].
      destruct Hm as [->|Hm]; [|done]. exists v. rewrite Hout by done.
      rewrite lookup_insert_eq, Hv. done.
    + intros Hn. rewrite Hout by tauto. rewrite lookup_insert_ne; [done|].
      intros ->. apply Hn. by left.
Qed.

Lemma fill_models_spec (get_reference : string -> string -> option string) (proj mc : string)
    (data_json : json) (mods : list string) (dict1 d : gmap string (gmap string json))
    (ws : list warning) :
  fill_models get_reference proj mc data_json mods dict1 = (ws, inr d) ->
  forall m,
    (m ∈ mods -> exists row, d !! m = Some row /\
       (row_of get_reference proj mc data_json m).2 = inr row) /\
    (m ∉ mods -> d !! m = dict1 !! m).
Proof.
  revert dict1 ws. induction mods as [|a mods IH]; intros dict1 ws H m; cbn in H.
  - injection H as _ ->. split; [by rewrite elem_of_nil|done].
  - apply drv_bind_inr in H as (ws1 & row & ws2 & Hr & H & _).
    destruct (IH _ _ H m) as [Hin Hout]. rewrite elem_of_cons. split.
    + intros Hm. destruct (decide (m ∈ mods)) as [Hi|Hn]; [by apply Hin|].
      destruct Hm as [->|Hm]; [|done]. exists row. rewrite Hout by done.
      rewrite lookup_insert_eq, Hr. done.
    + intros Hn. rewrite Hout by tauto. rewrite lookup_insert_ne; [done|].
      intros ->. apply Hn. by left.
Qed.

Lemma fill_projects_spec (listing : list string) (load : string -> json)
    (get_reference : string -> string -> option string) (mc : string) (projs : list string)
    (d1 d1' : gmap string (gmap string json)) (dm dm' : gmap string (list string))
    (ws : list warning) :
  fill_projects listing load get_reference mc projs d1 dm = (ws, inr (d1', dm')) ->
  forall m row, d1' !! m = Some row ->
    (exists pre proj post models,
        projs = pre ++ proj :: post /\
        (project_models listing load mc proj).2 = inr models /\ m ∈ models /\
        (project_row listing load get_reference mc proj m).2 = inr row /\
        Forall (fun p => forall models', (project_models listing load mc p).2 = inr models' ->
                                         m ∉ models') post) \/
    (d1 !! m = Some row /\
     Forall (fun p => forall models', (project_models listing load mc p).2 = inr models' ->
                                      m ∉ models') projs).
Proof.
  revert d1 dm ws. induction projs as [|p ps IH]; intros d1 dm ws H m row Hm; cbn in H.
  - injection H as _ -> ->. right. by split.
  - apply drv_bind_inr in H as (ws1 & [fn dj] & ws2 & Hrd & H & _).
    apply drv_bind_inr in H as (ws3 & keys & ws4 & Hk & H & _).
    apply drv_bind_inr in H as (ws5 & d1m & ws6 & Hfm & H & _).
    assert (Hpm : (project_models listing load mc p).2 = inr (sorted_by str_upper keys)).
    { unfold project_models. rewrite (drv_bind_snd _ _ _ _ Hrd). cbn [snd].
      rewrite (drv_bind_snd _ _ _ _ Hk). done. }
    destruct (IH _ _ _ H m row Hm) as [(pre & proj & post & models & -> & H1 & H2 & H3 & H4)|[Hr Hf]].
    + left. exists (p :: pre), proj, post, models. done.
    + destruct (fill_models_spec _ _ _ _ _ _ _ _ Hfm m) as [Hin Hout].
      destruct (decide (m ∈ sorted_by str_upper keys)) as [Hi|Hn].
      * left. destruct (Hin Hi) as (row' & Hrow' & Hro). rewrite Hr in Hrow'.
        injection Hrow' as <-. exists [], p, ps, (sorted_by str_upper keys).
        split; [done|]. split; [done|]. split; [done|]. split; [|done].
        unfold project_row. rewrite (drv_bind_snd _ _ _ _ Hrd). done.
      * right. rewrite <- Hout by done. split; [done|]. constructor; [|done].
        intros models' Hm'. rewrite Hpm in Hm'. by injection Hm' as <-.
Qed.

Lemma fill_projects_listed (listing : list string) (load : string -> json)
    (get_reference : string -> string -> option string) (mc : string) (projs : list string)
    (d1 d1' : gmap string (gmap string json)) (dm dm' : gmap string (list string))
    (ws : list warning) (m : string) :
  fill_projects listing load get_reference mc projs d1 dm = (ws, inr (d1', dm')) ->
  (is_Some (d1 !! m) \/ exists proj models, proj ∈ projs /\
     (project_models listing load mc proj).2 = inr models /\ m ∈ models) ->
  is_Some (d1' !! m).
Proof.
  revert d1 dm ws. induction projs as [|p ps IH]; intros d1 dm ws H Hm; cbn in H.
  - injection H as _ -> ->. destruct Hm as [Hm|(proj & models & Hin & _)]; [done|].
    by apply elem_of_nil in Hin.
  - apply drv_bind_inr in H as (ws1 & [fn dj] & ws2 & Hrd & H & _).
    apply drv_bind_inr in H as (ws3 & keys & ws4 & Hk & H & _).
    apply drv_bind_inr in H as (ws5 & d1m & ws6 & Hfm & H & _).
    assert (Hpm : (project_models listing load mc p).2 = inr (sorted_by str_upper keys)).
    { unfold project_models. rewrite (drv_bind_snd _ _ _ _ Hrd). cbn [snd].
      rewrite (drv_bind_snd _ _ _ _ Hk). done. }
    destruct (fill_models_spec _ _ _ _ _ _ _ _ Hfm m) as [Hin Hout].
    apply (IH _ _ _ H).
    destruct Hm as [Hm|(proj & models & Hp & Hpm' & Hmm)].
    + left. destruct (decide (m ∈ sorted_by str_upper keys)) as [Hi|Hn].
      * destruct (Hin Hi) as (row & -> & _). by eexists.
      * by rewrite Hout.
    + apply elem_of_cons in Hp as [->|Hp].
      * left. rewrite Hpm in Hpm'. injection Hpm' as <-.
        destruct (Hin Hmm) as (row & -> & _). by eexists.
      * right. by exists proj, models.
Qed.

(** X1: [remove_metrics] keeps, in their order and with their
    multiplicity, exactly the names that are not in the removal list of
    the current collection and contain none of 'Ssh', 'Slp', 'Nina',
    'Std'. *)
Theorem remove_metrics_selection (mc : string) (list_met : list string) (metric_collection : string) :
  remove_metrics mc list_met metric_collection = List.filter (kept_metric mc) list_met /\
  forall met, met ∈ remove_metrics mc list_met metric_collection <->
    (met ∈ list_met /\ (met ∉ to_remove mc) /\ py_in "Ssh" met = false /\
     py_in "Slp" met = false /\ py_in "Nina" met = false /\ py_in "Std" met = false).
Proof.
  rewrite remove_metrics_filter. split; [done|]. intros met.
  rewrite filter_elem_l. unfold kept_metric.
  case_bool_decide; destruct (py_in "Ssh" met), (py_in "Slp" met), (py_in "Nina" met),
    (py_in "Std" met); cbn; intuition congruence.
Qed.

(** X2: applying [remove_metrics] to its own result changes nothing. *)
Theorem remove_metrics_idempotent (mc : string) (list_met : list string) (c1 c2 : string) :
  remove_metrics mc (remove_metrics mc list_met c1) c2 = remove_metrics mc list_met c1.
Proof.
  rewrite !remove_metrics_filter, filter_filter_l. apply filter_ext_in_l.
  intros y _. by destruct (kept_metric mc y).
Qed.

(** X3: the row the driver builds for a model holds exactly the metrics
    of the model's record that [remove_metrics] keeps, each with the number
    read for it (see C7 and C8). *)
Theorem row_of_metrics (get_reference : string -> string -> option string) (proj mc : string)
    (data_json : json) (mod_ : string) (ws : list warning) (row : gmap string json) :
  row_of get_reference proj mc data_json mod_ = (ws, inr row) ->
  exists kvs, json_path data_json [mod_; "value"] = Some (JObj kvs) /\
    forall met,
      (is_Some (row !! met) <-> met ∈ map fst kvs /\ kept_metric mc met = true) /\
      (forall v, row !! met = Some v ->
         (read_metric get_reference proj mc mod_ (JObj kvs) met).2 = inr v).
Proof.
  intros H. unfold row_of in H.
  apply drv_bind_inr in H as (? & dm & ? & Hdm & H & _).
  apply drv_bind_inr in H as (? & data_mod & ? & Hd & H & _).
  apply drv_bind_inr in H as (? & keys & ? & Hk & H & _).
  apply jget_inr in Hdm as [_ Hdm]. apply jget_inr in Hd as [_ Hd].
  destruct data_mod as [| | | | |kvs]; try discriminate. cbn in Hk. injection Hk as _ <-.
  exists kvs. split; [by rewrite (json_path_step _ _ _ _ Hdm)|].
  intros met. destruct (fill_row_spec _ _ _ _ _ _ _ _ _ H met) as [Hin Hout].
  rewrite remove_metrics_filter, filter_elem_l, sorted_by_elem, dedup_first_elem in Hin, Hout.
  split.
  - split.
    + intros Hs. destruct (decide (met ∈ map fst kvs /\ kept_metric mc met = true)) as [|Hn]; [done|].
      rewrite Hout, lookup_empty in Hs by done. by destruct Hs.
    + intros Hm. destruct (Hin Hm) as (v & -> & _). by eexists.
  - intros v Hv. destruct (decide (met ∈ map fst kvs /\ kept_metric mc met = true)) as [Hm|Hn].
    + destruct (Hin Hm) as (v' & Hv' & Hr). rewrite Hv in Hv'. by injection Hv' as <-.
    + rewrite Hout, lookup_empty in Hv by done. discriminate.
Qed.

(** X4: [dict1] is keyed by model name only, so when several projects
    list the same model the row of the last of them is kept; every model
    listed by some project has a row, and every row comes from the last
    project that lists its model. *)
Theorem driver_rows_last_project (listing : list string) (load : string -> json)
    (get_reference : string -> string -> option string) (mc : string) (projs : list string)
    (ws : list warning) (dict1 : gmap string (gmap string json)) (dict_mod : gmap string (list string)) :
  fill_projects listing load get_reference mc projs ∅ ∅ = (ws, inr (dict1, dict_mod)) ->
  (forall m row, dict1 !! m = Some row ->
     exists pre proj post models,
       projs = pre ++ proj :: post /\
       (project_models listing load mc proj).2 = inr models /\ m ∈ models /\
       (project_row listing load get_reference mc proj m).2 = inr row /\
       Forall (fun p => forall models', (project_models listing load mc p).2 = inr models' ->
                                        m ∉ models') post) /\
  (forall proj models m, proj ∈ projs ->
     (project_models listing load mc proj).2 = inr models -> m ∈ models ->
     is_Some (dict1 !! m)).
Proof.
  intros H. split.
  - intros m row Hm.
    destruct (fill_projects_spec _ _ _ _ _ _ _ _ _ _ H m row Hm) as [Hl|[He _]]; [done|].
    by rewrite lookup_empty in He.
  - intros proj models m Hp Hpm Hmm. eapply fill_projects_listed; [exact H|].
    right. by exists proj, models.
Qed.

(** Extra witness: the row of CCSM4 in the sample file of cmip6 holds its
    EnsoAmpl entry (NinaSstTsRmse is removed). *)
Lemma row_of_metrics_witness :
  exists ws row,
    row_of (fun _ _ => Some "ERA-Interim") "cmip6" "ENSO_perf"
      (JObj [("CCSM4", JObj [("value", JObj [
        ("EnsoAmpl", JObj [("metric", JObj [("ERA-Interim", JObj [("value", JNum 2)])])]);
        ("NinaSstTsRmse", JObj [("metric", JObj [("ERA-Interim", JObj [("value", JNum 2)])])])])])])
      "CCSM4" = (ws, inr row) /\
    is_Some (row !! "EnsoAmpl").
Proof.
  eexists _, _. split; [reflexivity|].
  destruct (row_of_metrics (fun _ _ => Some "ERA-Interim") "cmip6" "ENSO_perf"
      (JObj [("CCSM4", JObj [("value", JObj [
        ("EnsoAmpl", JObj [("metric", JObj [("ERA-Interim", JObj [("value", JNum 2)])])]);
        ("NinaSstTsRmse", JObj [("metric", JObj [("ERA-Interim", JObj [("value", JNum 2)])])])])])])
      "CCSM4" _ _ ltac:(reflexivity)) as (kvs & Hp & H).
  vm_compute in Hp. injection Hp as <-.
  apply (H "EnsoAmpl"). split; [vm_compute; left|reflexivity].
Defined.

(** Extra witness: on the sample directory, with cmip5 then cmip6, CCSM4
    has a row. *)
Lemma driver_rows_last_project_witness :
  exists ws dict1 dict_mod,
    fill_projects sample_listing sample_load (fun _ _ => Some "ERA-Interim") "ENSO_perf"
      ["cmip5"; "cmip6"] ∅ ∅ = (ws, inr (dict1, dict_mod)) /\
    is_Some (dict1 !! "CCSM4").
Proof.
  eexists _, _, _. split; [reflexivity|].
  destruct (driver_rows_last_project sample_listing sample_load (fun _ _ => Some "ERA-Interim")
      "ENSO_perf" ["cmip5"; "cmip6"] _ _ _ ltac:(reflexivity)) as [_ H].
  apply (H "cmip6" ["CCSM4"]).
  - right. left.
  - reflexivity.
  - left.
Defined.

(* ================================================================== *)
(** * Extra properties of the metric functions *)

Lemma check_min_length_fill (m : metric) (kw : kwargs) (ls : series_lengths) (v : pyval) :
  kw !! "min_time_steps" = Some v ->
  check_min_length m (fill_defaults (needed_kwarg m) kw) ls =
  match length_check_of m with
  | PairCheck =>
      match py_int v with
      | Some mini =>
          if Z.ltb (len_a ls) mini then Err (ETooShort (metric_name m) "modeled" (len_a ls) mini)
          else if Z.ltb (len_b ls) mini then Err (ETooShort (metric_name m) "observed" (len_b ls) mini)
          else Ok tt
      | None => Ok tt
      end
  | SingleCheck =>
      match py_int v with
      | Some mini => if Z.ltb (len_a ls) mini then Err (ETooShort (metric_name m) "" (len_a ls) mini)
                     else Ok tt
      | None => Ok tt
      end
  | CheckTimePair => CheckTime (metric_name m) (fill_defaults (needed_kwarg m) kw) ls
  end.
Proof.
  intros Hv. unfold check_min_length.
  destruct (length_check_of m); [| |done]; unfold kw_get; rewrite (fill_defaults_keep _ _ _ _ Hv);
    cbn; destruct (py_int v); done.
Qed.

(** X5: a model-vs-observations metric checks the modeled series
    first: when [min_time_steps] is an int and both series are too short,
    the error reports the modeled length; the observed series is reported
    only when the modeled one is long enough. *)
Theorem too_short_modeled_first (m : metric) (debug : pyval) (kw : kwargs) (ls : series_lengths)
    (mini : Z) :
  length_check_of m = PairCheck -> kw !! "min_time_steps" = Some (VInt mini) ->
  ((len_a ls < mini)%Z ->
     run_metric m debug kw ls = Err (ETooShort (metric_name m) "modeled" (len_a ls) mini)) /\
  ((mini <= len_a ls)%Z -> (len_b ls < mini)%Z ->
     run_metric m debug kw ls = Err (ETooShort (metric_name m) "observed" (len_b ls) mini)).
Proof.
  intros Hp Hv. rewrite !run_metric_short, (check_min_length_fill _ _ _ _ Hv), Hp. cbn.
  split.
  - intros Ha. rewrite (proj2 (Z.ltb_lt _ _) Ha). done.
  - intros Ha Hb. rewrite (proj2 (Z.ltb_ge _ _) Ha), (proj2 (Z.ltb_lt _ _) Hb). done.
Qed.

(** Extra witness: BiasSstRmse with [min_time_steps = 360] and series of
    120 and 240 months. *)
Lemma too_short_modeled_first_witness :
  run_metric BiasSstRmse (VBool false) {["min_time_steps" := VInt 360]} {| len_a := 120; len_b := 240 |} =
    Err (ETooShort "BiasSstRmse" "modeled" 120 360).
Proof.
  apply (too_short_modeled_first BiasSstRmse (VBool false) {["min_time_steps" := VInt 360]}
           {| len_a := 120; len_b := 240 |} 360); [reflexivity|reflexivity|cbn; lia].
Defined.

(** X6: [isinstance(True, int)] holds in Python, so a boolean
    [min_time_steps] is used as the minimum 0 or 1: with [True] a metric
    with an inline check rejects exactly an empty series, with [False] it
    never rejects. *)
Theorem min_time_steps_bool (m : metric) (debug : pyval) (kw : kwargs) (ls : series_lengths) (b : bool) :
  length_check_of m <> CheckTimePair -> kw !! "min_time_steps" = Some (VBool b) ->
  (0 <= len_a ls)%Z -> (0 <= len_b ls)%Z ->
  ((exists w l mini, run_metric m debug kw ls = Err (ETooShort (metric_name m) w l mini)) <->
   b = true /\ (len_a ls = 0%Z \/ (length_check_of m = PairCheck /\ len_b ls = 0%Z))).
Proof.
  intros Hc Hv Ha Hb.
  transitivity (exists w l mini, check_min_length m (fill_defaults (needed_kwarg m) kw) ls =
                                 Err (ETooShort (metric_name m) w l mini)).
  { split; intros (w & l & mini & H); exists w, l, mini; by apply (run_metric_short m debug). }
  rewrite (check_min_length_fill _ _ _ _ Hv).
  destruct (length_check_of m) eqn:Hl; [| |done]; cbn;
    destruct b; cbn.
  - destruct (Z.ltb_spec (len_a ls) 1); [split; [intros _; split; [done|left; lia]|eauto]|].
    destruct (Z.ltb_spec (len_b ls) 1); [split; [intros _; split; [done|right; split; [done|lia]]|eauto]|].
    split; [intros (? & ? & ? & ?); discriminate|intros [_ [?|[_ ?]]]; lia].
  - destruct (Z.ltb_spec (len_a ls) 0); [lia|]. destruct (Z.ltb_spec (len_b ls) 0); [lia|].
    split; [intros (? & ? & ? & ?); discriminate|intros [? _]; discriminate].
  - destruct (Z.ltb_spec (len_a ls) 1); [split; [intros _; split; [done|left; lia]|eauto]|].
    split; [intros (? & ? & ? & ?); discriminate|intros [_ [?|[? _]]]; [lia|discriminate]].
  - destruct (Z.ltb_spec (len_a ls) 0); [lia|].
    split; [intros (? & ? & ? & ?); discriminate|intros [? _]; discriminate].
Qed.

(** Extra witness: [EnsoAmpl] with [min_time_steps = True] rejects an
    empty series. *)
Lemma min_time_steps_bool_witness :
  exists w l mini, run_metric EnsoAmpl (VBool false) {["min_time_steps" := VBool true]}
                     {| len_a := 0; len_b := 0 |} =
                   Err (ETooShort (metric_name EnsoAmpl) w l mini).
Proof.
  apply (min_time_steps_bool EnsoAmpl (VBool false) {["min_time_steps" := VBool true]} {| len_a := 0; len_b := 0 |} true);
    [discriminate|reflexivity|cbn; lia|cbn; lia|].
  split; [reflexivity|left; reflexivity].
Defined.

(** X7: the regridding step only acts on a dict; any other value of
    ['regridding'] given by the caller (None, True, a string, ...) is
    silently ignored, so even NinaSstLonRmse and NinoSstLonRmse then run
    without regridding and without the KeyError of C9 (BiasPrRmse only
    gets that far with [debug=True]). *)
Theorem regridding_non_dict_ignored (m : metric) (debug : pyval) (kw : kwargs) (ls : series_lengths)
    (v : pyval) :
  kw !! "regridding" = Some v -> (forall kvs, v <> VDict kvs) ->
  check_min_length m (fill_defaults (needed_kwarg m) kw) ls = Ok tt ->
  (m <> BiasPrRmse \/ debug = VBool true) ->
  run_metric m debug kw ls = Ok {| out_keys := record_keys m; out_regridded := false |}.
Proof.
  intros Hk Hnd Hc Hd. rewrite run_metric_unfold, Hc, areacell_bound by exact Hd.
  destruct (has_regrid_step m); [|done].
  unfold regrid_step, kw_get. rewrite (fill_defaults_keep _ _ _ _ Hk). cbn.
  destruct v; try done. exfalso. by apply (Hnd kvs).
Qed.

(** Extra witness: NinaSstLonRmse called with [regridding=None]. *)
Lemma regridding_non_dict_ignored_witness :
  run_metric NinaSstLonRmse (VBool false) {["regridding" := VNone]} {| len_a := 120; len_b := 120 |} =
    Ok {| out_keys := record_keys NinaSstLonRmse; out_regridded := false |}.
Proof.
  apply (regridding_non_dict_ignored NinaSstLonRmse (VBool false) {["regridding" := VNone]}
           {| len_a := 120; len_b := 120 |} VNone);
    [reflexivity|discriminate|vm_compute; reflexivity|left; discriminate].
Defined.

(** X8: the [try: kwargs[arg] except: kwargs[arg] = DefaultArgValues(arg)]
    loop never overrides a value the caller passed, not even [None], and
    never touches a key outside [needed_kwarg]; it only adds the needed
    keys the caller left out. *)
Theorem fill_defaults_preserves (needed : list string) (kw : kwargs) :
  (forall k v, kw !! k = Some v -> fill_defaults needed kw !! k = Some v) /\
  (forall k, k ∉ needed -> fill_defaults needed kw !! k = kw !! k) /\
  (forall k, is_Some (fill_defaults needed kw !! k) <-> is_Some (kw !! k) \/ k ∈ needed).
Proof.
  split; [|split].
  - intros k v H. rewrite fill_defaults_lookup, H. done.
  - intros k Hn. rewrite fill_defaults_lookup. destruct (kw !! k); [done|].
    by rewrite decide_False.
  - intros k. rewrite fill_defaults_lookup. destruct (kw !! k); [split; [by left|by eexists]|].
    destruct (decide (k ∈ needed)); split; try (by eexists); try tauto.
Qed.

(* ================================================================== *)
(** * Extra properties of the driver's reading of a cell *)

Lemma jlookup_fold_notin (k : string) (kvs : list (string * json)) (acc : option json) :
  k ∉ map fst kvs ->
  fold_left (fun acc '(k', v) => if String.eqb k k' then Some v else acc) kvs acc = acc.
Proof.
  revert acc. induction kvs as [|[k' v] kvs IH]; intros acc Hn; cbn; [done|].
  cbn in Hn. rewrite elem_of_cons in Hn. destruct (String.eqb_spec k k') as [->|]; [tauto|].
  apply IH. tauto.
Qed.

Lemma jlookup_in (k : string) (kvs : list (string * json)) :
  k ∈ map fst kvs -> exists r, jlookup k kvs = Some r /\ (k, r) ∈ kvs.
Proof.
  unfold jlookup. generalize (@None json) as acc.
  induction kvs as [|[k' v] kvs IH]; intros acc Hin; cbn in *; [by apply elem_of_nil in Hin|].
  destruct (decide (k ∈ map fst kvs)) as [Hi|Hn].
  - destruct (IH (if String.eqb k k' then Some v else acc) Hi) as (r & Hr & Hm). exists r. split; [done|]. by apply elem_of_cons; right.
  - apply elem_of_cons in Hin as [->|]; [|done].
    rewrite String.eqb_refl, jlookup_fold_notin by done. exists v. split; [done|].
    by apply elem_of_cons; left.
Qed.

Lemma select_reference_cases (proj mc mod_ met ref : string) (list_ref : list string) :
  (forall e, (select_reference proj mc mod_ met ref list_ref).2 = inl e ->
     e = DNoReference proj mc mod_ met list_ref) /\
  (forall r, (select_reference proj mc mod_ met ref list_ref).2 = inr r -> r ∈ list_ref).
Proof.
  unfold select_reference.
  case_bool_decide; [split; [discriminate|by intros r [= <-]]|].
  case_bool_decide; [split; [discriminate|by intros r [= <-]]|].
  case_bool_decide; [split; [discriminate|by intros r [= <-]]|].
  split; [by intros e [= <-]|discriminate].
Qed.

(** X9: the reference the driver picks is always one of the record's
    references, so when every reference entry of the record is a dict with
    a 'value' key, reading a cell can only fail with the no-reference
    error of C7, never with a KeyError or TypeError. *)
Theorem read_metric_only_no_reference (get_reference : string -> string -> option string)
    (proj mc mod_ : string) (data_mod : json) (met : string) (kvs : list (string * json)) (e : drv_err) :
  json_path data_mod [met; "metric"] = Some (JObj kvs) ->
  Forall (fun kv => exists kvs', kv.2 = JObj kvs' /\ "value" ∈ map fst kvs') kvs ->
  (read_metric get_reference proj mc mod_ data_mod met).2 = inl e ->
  e = DNoReference proj mc mod_ met (map fst kvs).
Proof.
  intros Hp Hall. rewrite (read_metric_path _ _ _ _ _ _ _ Hp).
  destruct (select_reference_cases proj mc mod_ met (ref_of get_reference mc met) (map fst kvs))
    as [Hl Hr].
  destruct (select_reference _ _ _ _ _ _) as [ws [e'|r]] eqn:Es; cbn.
  - intros [= <-]. by apply Hl.
  - intros He. exfalso. specialize (Hr r eq_refl).
    destruct (jlookup_in _ _ Hr) as (c & Hc & Hm).
    rewrite Forall_forall in Hall. destruct (Hall _ Hm) as (kvs' & Hc' & Hv). cbn in Hc'. subst c.
    destruct (jlookup_in _ _ Hv) as (x & Hx & _).
    unfold read_cell in He. destruct (taux_bcc mod_ met); [discriminate|].
    cbn in He. rewrite Hc in He. cbn in He. rewrite Hx in He. cbn in He.
    destruct x; discriminate.
Qed.

(** Extra witness: a record with only a HadISST reference while
    Tropflux is preferred. *)
Lemma read_metric_only_no_reference_witness :
  (read_metric (fun _ _ => Some "Tropflux") "cmip5" "ENSO_perf" "CCSM4"
     (JObj [("EnsoAmpl", JObj [("metric", JObj [("HadISST", JObj [("value", JNum 1)])])])])
     "EnsoAmpl").2 = inl (DNoReference "cmip5" "ENSO_perf" "CCSM4" "EnsoAmpl" ["HadISST"]) /\
  DNoReference "cmip5" "ENSO_perf" "CCSM4" "EnsoAmpl" ["HadISST"] =
    DNoReference "cmip5" "ENSO_perf" "CCSM4" "EnsoAmpl" (map fst [("HadISST", JObj [("value", JNum 1)])]).
Proof.
  split; [reflexivity|].
  apply (read_metric_only_no_reference (fun _ _ => Some "Tropflux") "cmip5" "ENSO_perf" "CCSM4"
     (JObj [("EnsoAmpl", JObj [("metric", JObj [("HadISST", JObj [("value", JNum 1)])])])])
     "EnsoAmpl" [("HadISST", JObj [("value", JNum 1)])]).
  - reflexivity.
  - constructor; [|constructor]. eexists. split; [reflexivity|]. cbn. left.
  - reflexivity.
Defined.

(* ================================================================== *)
(** * Extra properties of the driver's choice of a file *)

Lemma list_ascii_of_string_app (a b : string) :
  list_ascii_of_string (a ++ b)%string = list_ascii_of_string a ++ list_ascii_of_string b.
Proof.
  induction a as [|c a IH]; [reflexivity|].
  change (c :: list_ascii_of_string (a ++ b)%string = c :: list_ascii_of_string a ++ list_ascii_of_string b).
  by rewrite IH.
Qed.

Lemma list_ascii_of_string_inj (a b : string) :
  list_ascii_of_string a = list_ascii_of_string b -> a = b.
Proof.
  intros H. rewrite <- (string_of_list_ascii_of_string a), <- (string_of_list_ascii_of_string b).
  by rewrite H.
Qed.

Lemma glob_match_literal (p q n : list Ascii.ascii) :
  Forall (fun c => c <> "?"%char) p ->
  glob_match (p ++ q) n = true <-> exists n', n = p ++ n' /\ glob_match q n' = true.
Proof.
  revert n. induction p as [|c p IH]; intros n Hp; cbn.
  - split; [eauto|]. by intros (n' & -> & ?).
  - apply Forall_cons in Hp as [Hc Hp].
    destruct n as [|d n].
    + split; [discriminate|]. by intros (n' & ? & _).
    + destruct (Ascii.eqb_spec c "?"%char) as [->|_]; [done|].
      destruct (Ascii.eqb_spec c d) as [->|Hcd].
      * rewrite (IH n Hp). split.
        -- intros (n' & -> & ?). eauto.
        -- intros (n' & [= ->] & ?). eauto.
      * split; [discriminate|]. intros (n' & [= ->] & _). done.
Qed.

Lemma glob_match_exact (q n : list Ascii.ascii) :
  Forall (fun c => c <> "?"%char) q -> glob_match q n = true <-> n = q.
Proof.
  intros Hq. rewrite <- (app_nil_r q) at 1. rewrite (glob_match_literal q [] n Hq).
  split.
  - intros (n' & -> & Hn). destruct n'; [by rewrite app_nil_r|discriminate].
  - intros ->. exists []. by rewrite app_nil_r.
Qed.

Lemma glob_match_wild4 (q n : list Ascii.ascii) :
  glob_match ("?" :: "?" :: "?" :: "?" :: q)%char n = true <->
  exists c1 c2 c3 c4 n', n = c1 :: c2 :: c3 :: c4 :: n' /\ glob_match q n' = true.
Proof.
  split.
  - destruct n as [|c1 [|c2 [|c3 [|c4 n]]]]; cbn; try discriminate. eauto 10.
  - intros (c1 & c2 & c3 & c4 & n' & -> & H). exact H.
Qed.

Definition no_glob_char (s : string) : Prop :=
  Forall (fun c => c <> "?"%char /\ c <> "*"%char /\ c <> "["%char) (list_ascii_of_string s).

(** X10: when the project and the collection names hold no wildcard
    character, [read_data] accepts exactly the file names
    [project_historical_collection_v2019XXXX_modified.json] with any four
    characters in place of XXXX. *)
Theorem read_data_file_names (project metric_collection f : string) :
  no_glob_char project -> no_glob_char metric_collection ->
  matches project metric_collection f = true <->
  exists c1 c2 c3 c4 : Ascii.ascii,
    f = (project ++ "_historical_" ++ metric_collection ++ "_v2019" ++
         String c1 (String c2 (String c3 (String c4 "_modified.json"))))%string.
Proof.
  intros Hp Hm.
  assert (Hnq : forall s, no_glob_char s -> Forall (fun c => c <> "?"%char) (list_ascii_of_string s)).
  { intros s Hs. eapply Forall_impl; [exact Hs|]. intros c [? _]. done. }
  set (P := list_ascii_of_string project ++ list_ascii_of_string "_historical_" ++
            list_ascii_of_string metric_collection ++ list_ascii_of_string "_v2019").
  assert (HP : Forall (fun c => c <> "?"%char) P).
  { unfold P. repeat apply Forall_app_2; try apply Hnq; try done;
      repeat constructor; discriminate. }
  assert (Hl : list_ascii_of_string (lname project metric_collection) =
               P ++ ("?" :: "?" :: "?" :: "?" :: list_ascii_of_string "_modified.json")%char).
  { unfold lname, P. rewrite !list_ascii_of_string_app, <- !app_assoc. reflexivity. }
  unfold matches. rewrite Hl, (glob_match_literal _ _ _ HP).
  split.
  - intros (n' & Hf & Hw). apply glob_match_wild4 in Hw as (c1 & c2 & c3 & c4 & n'' & -> & Hs).
    apply glob_match_exact in Hs as ->; [|repeat constructor; discriminate].
    exists c1, c2, c3, c4. apply list_ascii_of_string_inj.
    rewrite Hf. unfold P. rewrite !list_ascii_of_string_app, <- !app_assoc. reflexivity.
  - intros (c1 & c2 & c3 & c4 & ->).
    exists (c1 :: c2 :: c3 :: c4 :: list_ascii_of_string "_modified.json").
    split.
    + unfold P. rewrite !list_ascii_of_string_app, <- !app_assoc. reflexivity.
    + apply glob_match_wild4. do 5 eexists. split; [reflexivity|].
      apply glob_match_exact; [repeat constructor; discriminate|reflexivity].
Qed.

(** Extra witness: the CMIP5 file of the ENSO performance collection. *)
Lemma read_data_file_names_witness :
  no_glob_char "cmip5" /\ no_glob_char "ENSO_perf" /\
  (matches "cmip5" "ENSO_perf" "cmip5_historical_ENSO_perf_v20190101_modified.json" = true <->
   exists c1 c2 c3 c4 : Ascii.ascii,
     "cmip5_historical_ENSO_perf_v20190101_modified.json" =
     ("cmip5" ++ "_historical_" ++ "ENSO_perf" ++ "_v2019" ++
      String c1 (String c2 (String c3 (String c4 "_modified.json"))))%string).
Proof.
  assert (Hc : no_glob_char "cmip5") by (repeat constructor; discriminate).
  assert (He : no_glob_char "ENSO_perf") by (repeat constructor; discriminate).
  split; [exact Hc|]. split; [exact He|].
  apply (read_data_file_names "cmip5" "ENSO_perf" _ Hc He).
Defined.

(* ================================================================== *)
(** * Extra properties of the layout of the combined plot *)

Lemma rows_sum_nonneg (lens : list nat) :
  (0 <= fold_right (fun l acc => Z.of_nat l + acc) 0 lens)%Z.
Proof. induction lens; cbn; lia. Qed.

Lemma panel_rows_length (count : Z) (lens : list nat) :
  length (panel_rows count lens) = length lens.
Proof. revert count. induction lens; intros; cbn; auto. Qed.

Lemma panel_rows_bounds (lens : list nat) : forall (count : Z) (i : nat) (a b : Z),
  panel_rows count lens !! i = Some (a, b) ->
  (count <= a)%Z /\ lens !! i = Some (Z.to_nat (b - a)) /\
  (a <= b <= count + fold_right (fun l acc => Z.of_nat l + acc) 0 lens
             + (Z.of_nat (length lens) - 1) * 3)%Z.
Proof.
  induction lens as [|l ls IH]; intros count i a b H; [done|].
  pose proof (rows_sum_nonneg ls).
  destruct i as [|i]; cbn in H |- *.
  - injection H; intros; subst. split; [lia|]. split; [f_equal; lia|]. lia.
  - destruct (IH _ _ _ _ H) as (H1 & H2 & H3). split; [lia|]. split; [done|]. lia.
Qed.

Lemma panel_rows_gap (lens : list nat) : forall (count : Z) (i : nat) (a b a' b' : Z),
  panel_rows count lens !! i = Some (a, b) ->
  panel_rows count lens !! S i = Some (a', b') -> a' = (b + 3)%Z.
Proof.
  induction lens as [|l ls IH]; intros count i a b a' b' H H'; [done|].
  destruct i as [|i]; cbn in H, H'.
  - injection H; intros; subst. destruct ls; cbn in H'; [done|].
    injection H'; intros; subst. lia.
  - exact (IH _ _ _ _ _ _ H H').
Qed.

Lemma panel_rows_last (lens : list nat) : forall count : Z,
  lens <> [] ->
  exists a, last (panel_rows count lens) =
    Some (a, count + fold_right (fun l acc => Z.of_nat l + acc) 0 lens
             + (Z.of_nat (length lens) - 1) * 3)%Z.
Proof.
  induction lens as [|l ls IH]; intros count Hne; [done|].
  destruct ls as [|l' ls].
  - cbn. eexists. f_equal. f_equal. lia.
  - destruct (IH (count + Z.of_nat l + 3)%Z ltac:(done)) as [a Ha].
    exists a. change (last (panel_rows count (l :: l' :: ls)))
      with (last (panel_rows (count + Z.of_nat l + 3)%Z (l' :: ls))).
    rewrite Ha. f_equal. f_equal. cbn [fold_right length]. lia.
Qed.

(** X11: for a non-empty list of tables, [multiportraitplot] gives one
    block of grid rows per table, as many rows as the table has, inside the
    [nbrl] rows of the grid; consecutive blocks are 3 rows apart and the
    last block ends on the grid's last row. *)
Theorem multiportraitplot_layout (lens : list nat) :
  lens <> [] ->
  length (panel_rows 0 lens) = length lens /\
  (forall i a b, panel_rows 0 lens !! i = Some (a, b) ->
     (0 <= a)%Z /\ lens !! i = Some (Z.to_nat (b - a)) /\ (a <= b <= nbrl lens)%Z) /\
  (forall i a b a' b', panel_rows 0 lens !! i = Some (a, b) ->
     panel_rows 0 lens !! S i = Some (a', b') -> a' = (b + 3)%Z) /\
  (exists a, last (panel_rows 0 lens) = Some (a, nbrl lens)).
Proof.
  intros Hne. split; [apply panel_rows_length|]. split; [|split].
  - intros i a b H. destruct (panel_rows_bounds lens 0 i a b H) as (H1 & H2 & H3).
    unfold nbrl. split; [done|]. split; [done|]. lia.
  - apply panel_rows_gap.
  - destruct (panel_rows_last lens 0 Hne) as [a Ha]. exists a. rewrite Ha. unfold nbrl. do 2 f_equal; lia.
Qed.

(** Extra witness: three collections with 14, 9 and 17 metrics. *)
Lemma multiportraitplot_layout_witness :
  panel_rows 0 [14; 9; 17]%nat = [(0, 14); (17, 26); (29, 46)]%Z /\ nbrl [14; 9; 17]%nat = 46%Z /\
  (length (panel_rows 0 [14; 9; 17]%nat) = length [14; 9; 17]%nat /\
  (forall i a b, panel_rows 0 [14; 9; 17]%nat !! i = Some (a, b) ->
     (0 <= a)%Z /\ [14; 9; 17]%nat !! i = Some (Z.to_nat (b - a)) /\ (a <= b <= nbrl [14; 9; 17]%nat)%Z) /\
  (forall i a b a' b', panel_rows 0 [14; 9; 17]%nat !! i = Some (a, b) ->
     panel_rows 0 [14; 9; 17]%nat !! S i = Some (a', b') -> a' = (b + 3)%Z) /\
  (exists a, last (panel_rows 0 [14; 9; 17]%nat) = Some (a, nbrl [14; 9; 17]%nat))).
Proof.
  split; [reflexivity|]. split; [reflexivity|].
  apply (multiportraitplot_layout [14; 9; 17]%nat). discriminate.
Defined.
